(** * MegaBasterd build scripts: [build.py] and [run.py]

    A shallow embedding of the two Python scripts and the properties of
    their command dispatch: which external processes are started, in
    which order, which diagnostics are printed and which result or exit
    code comes out.

    The scripts are effectful: they print, they start external
    processes, they read and change the file system and they raise
    exceptions.  All of that is threaded through a small state and
    exception monad [M] over a [World] (file system plus an ordered
    trace of what was printed and started). *)

From Stdlib Require Import ZArith String Ascii List Bool Lia.
From stdpp Require Import base option list strings gmap fin_maps pretty.

Local Open Scope string_scope.
Local Open Scope Z_scope.
Local Open Scope list_scope.

(** ** The world the scripts run in *)

(** A file-system entry.  [node_locked] marks an entry the process may
    not remove: removing it raises a file-system error (Python's
    [OSError]). *)
Record Node := mkNode { node_is_dir : bool; node_locked : bool }.

(** The file system below the script directory: normalised relative
    path to entry.  ([main] changes to the script directory first.) *)
Abbreviation FS := (gmap string Node).

(** What is printed: [Header], [Success], [Error] and [Info] are the
    four print helpers of [build.py] (the ANSI colour and the leading
    symbol of each helper are kept as the tag, [Error] goes to the
    standard error stream); [Plain] is a direct [print]. *)
Inductive Level := Header | Success | Error | Info | Plain.

(** One call of [subprocess.run]: the command line, the working
    directory override and the [check] flag ([check = false] is
    "tolerate a non-zero exit"). *)
Record Invocation := mkInvocation {
  cmd : list string;
  cwd : option string;
  check : bool
}.

Inductive Event :=
  | Print (l : Level) (msg : string)
  | Spawn (inv : Invocation).

Record World := mkWorld { fs : FS; trace : list Event }.

(** How an external process ended, for the two endings [run_command]
    tells apart: it ran and exited with a return code (negative when
    killed by a signal), or its executable was not found.  Other ways
    in which starting a process can fail (an executable that is found
    but may not be executed, say) are not part of the model: what is
    proved about a process is proved about a process that ended in one
    of these two ways. *)
Inductive Outcome :=
  | Exited (returncode : Z)
  | NotFound.

Definition succeeded (o : Outcome) : bool :=
  match o with
  | Exited rc => rc =? 0
  | NotFound => false
  end.

(** The Python exceptions that occur in the two scripts. *)
Inductive Exn :=
  | CalledProcessError (returncode : Z)
  | FileNotFoundError
  | IndexError
  | NameError (name : string)
  | NotADirectoryError
  | OSError (path : string)
  | SystemExit (code : Z).

Inductive Res (A : Type) :=
  | Return (a : A)
  | Raise (e : Exn).
Arguments Return {A} a.
Arguments Raise {A} e.

(** ** The monad of the scripts *)

Definition M (A : Type) : Type := World → Res A * World.

Definition ret {A} (a : A) : M A := λ w, (Return a, w).

Definition bind {A B} (m : M A) (k : A → M B) : M B :=
  λ w,
    match m w with
    | (Return a, w') => k a w'
    | (Raise e, w') => (Raise e, w')
    end.

#[global] Instance M_ret : MRet M := @ret.

#[global] Instance M_bind : MBind M := λ A B k m, bind m k.

Declare Scope M_scope.
Delimit Scope M_scope with M.
Notation "x ← m ; k" := (bind m (λ x, k))
  (at level 20, m at level 100, k at level 200, only parsing) : M_scope.
Notation "m ;; k" := (bind m (λ _, k))
  (at level 100, k at level 200, only parsing, right associativity) : M_scope.
Local Open Scope M_scope.

Definition raise {A} (e : Exn) : M A := λ w, (Raise e, w).

(** [try: body except ...: handler]: [handler e = None] when no
    [except] clause matches [e], which then propagates. *)
Definition try_except {A} (body : M A) (handler : Exn → option (M A)) : M A :=
  λ w,
    match body w with
    | (Return a, w') => (Return a, w')
    | (Raise e, w') =>
        match handler e with
        | Some h => h w'
        | None => (Raise e, w')
        end
    end.

Definition emit (e : Event) : M unit :=
  λ w, (Return tt, {| fs := fs w; trace := trace w ++ [e] |}).

(** The events a run added to the trace. *)
Definition new_events (w w' : World) : list Event :=
  drop (length (trace w)) (trace w').

Definition spawned (e : Event) : option Invocation :=
  match e with
  | Spawn inv => Some inv
  | Print _ _ => None
  end.

(** The invocations among a list of events, in order. *)
Definition invocations (es : list Event) : list Invocation :=
  omap spawned es.

Definition is_diagnostic (e : Event) : bool :=
  match e with
  | Print Error _ => true
  | _ => false
  end.

(** ** Paths and the file system *)

(** [pathlib.Path(s)] for the relative paths of the scripts: a trailing
    separator is dropped. *)
Fixpoint Path (s : string) : string :=
  match s with
  | EmptyString => EmptyString
  | String c rest =>
      match Path rest with
      | EmptyString => if Ascii.eqb c "/" then EmptyString else String c EmptyString
      | r => String c r
      end
  end.

(** [p] is [root] itself or lies below it. *)
Definition under (root p : string) : bool :=
  String.eqb root p || String.prefix (root +:+ "/") p.

Definition fs_exists (p : string) : M bool :=
  λ w, (Return (bool_decide (is_Some (fs w !! p))), w).

Definition fs_is_dir (p : string) : M bool :=
  λ w, (Return (from_option node_is_dir false (fs w !! p)), w).

(** The entries at or below [root]. *)
Definition subtree (root : string) (m : FS) : FS :=
  filter (λ kv, under root kv.1) m.

Definition prune (root : string) (m : FS) : FS :=
  filter (λ kv, ¬ under root kv.1) m.

Definition all_unlocked (m : FS) : bool :=
  bool_decide (map_Forall (λ _ n, node_locked n = false) m).

(** What [subprocess.run] raises, before any process is started, when
    the working directory [cwd] cannot be used: [FileNotFoundError]
    when it does not exist, [NotADirectoryError] when it is not a
    directory. *)
Definition cwd_error (m : FS) (cwd : option string) : option Exn :=
  match cwd with
  | None => None
  | Some d =>
      match m !! d with
      | None => Some FileNotFoundError
      | Some n => if node_is_dir n then None else Some NotADirectoryError
      end
  end.

(** [Path.unlink]: removes one file; raises on a missing path, on a
    directory and on a file that may not be removed. *)
Definition unlink (p : string) : M unit :=
  λ w,
    match fs w !! p with
    | Some n =>
        if node_is_dir n || node_locked n then (Raise (OSError p), w)
        else (Return tt, {| fs := delete p (fs w); trace := trace w |})
    | None => (Raise (OSError p), w)
    end.

(** [shutil.rmtree]: removes a directory and everything below it;
    raises when the path is not a directory or when an entry at or
    below it may not be removed.  Of a failing [rmtree] only the
    failure is modelled: the entries the real [rmtree] has removed by
    then are not, the file system is left as it was, and the error
    carries the path of the tree, not of the entry that failed. *)
Definition rmtree (p : string) : M unit :=
  λ w,
    match fs w !! p with
    | Some n =>
        if node_is_dir n && all_unlocked (subtree p (fs w))
        then (Return tt, {| fs := prune p (fs w); trace := trace w |})
        else (Raise (OSError p), w)
    | None => (Raise (OSError p), w)
    end.

(** ** [build.py] *)

Section build_py.

(** The external world: what starting [cmd] in [cwd] on a given file
    system leads to, and the file system the process leaves behind. *)
Context (spawn : list string → option string → FS → Outcome * FS).

Definition print_header (msg : string) : M unit := emit (Print Header msg).

Definition print_success (msg : string) : M unit := emit (Print Success msg).

Definition print_error (msg : string) : M unit := emit (Print Error msg).

Definition print_info (msg : string) : M unit := emit (Print Info msg).

(** [build.py] calls [print_warning] in [deps] but defines no such
    function (only the colour [Colors.WARNING] exists): evaluating the
    name raises [NameError]. *)
Definition print_warning (msg : string) : M unit :=
  raise (NameError "print_warning").

(** Starting [cmd] in [cwd]: the error of an unusable working
    directory, or how the process ended and the file system it left. *)
Definition launch (cmd : list string) (cwd : option string) (m : FS) :
    (Exn + Outcome) * FS :=
  match cwd_error m cwd with
  | Some e => (inl e, m)
  | None => let '(o, m') := spawn cmd cwd m in (inr o, m')
  end.

(** [subprocess.run(cmd, cwd=cwd, check=check, ...)], giving the
    return code. *)
Definition subprocess_run (cmd : list string) (cwd : option string)
    (check : bool) : M Z :=
  λ w,
    let '(l, fs') := launch cmd cwd (fs w) in
    let w' := {| fs := fs';
                 trace := trace w ++ [Spawn (mkInvocation cmd cwd check)] |} in
    match l with
    | inl e => (Raise e, w')
    | inr NotFound => (Raise FileNotFoundError, w')
    | inr (Exited rc) =>
        if check && negb (rc =? 0)
        then (Raise (CalledProcessError rc), w')
        else (Return rc, w')
    end.

Definition run_command (cmd : list string) (cwd : option string)
    (check : bool) : M bool :=
  print_info ("Running: " +:+ String.concat " " cmd);;
  try_except
    (rc ← subprocess_run cmd cwd check;
     mret (rc =? 0))
    (λ e,
       match e with
       | CalledProcessError rc => Some (
           print_error ("Command failed with exit code " +:+ pretty rc);;
           mret false)
       | FileNotFoundError => Some (
           match cmd with
           | c0 :: _ =>
               print_error ("Command not found: " +:+ c0);;
               mret false
           | [] => raise IndexError
           end)
       | _ => None
       end).

Definition dev : M bool :=
  print_header "Starting Development Server";;
  run_command ["wails"; "dev"] None true.

Definition build (clean upx : bool) : M bool :=
  print_header "Building Application";;
  let cmd := ["wails"; "build"] in
  let cmd := if clean then cmd ++ ["-clean"] else cmd in
  let cmd := if upx then cmd ++ ["-upx"] else cmd in
  run_command cmd None true.

Definition test_coverage_cmd : list string :=
  ["go"; "test"; "-v"; "-coverprofile=coverage.out"; "./internal/..."; "./pkg/..."].

Definition cover_report_cmd : list string :=
  ["go"; "tool"; "cover"; "-html=coverage.out"; "-o"; "coverage.html"].

Definition test_plain_cmd : list string :=
  ["go"; "test"; "-v"; "./internal/..."; "./pkg/..."].

Definition test (coverage : bool) : M bool :=
  print_header "Running Tests";;
  if coverage then
    ok ← run_command test_coverage_cmd None true;
    if negb ok then mret false
    else
      print_success "Tests passed with coverage";;
      print_info "Generating coverage report...";;
      ok ← run_command cover_report_cmd None true;
      if ok then
        print_success "Coverage report generated: coverage.html";;
        mret true
      else mret false
  else
    ok ← run_command test_plain_cmd None true;
    if ok then
      print_success "All tests passed";;
      mret true
    else mret false.

Definition paths_to_remove : list string :=
  ["build/"; "frontend/dist/"; "frontend/node_modules/";
   "coverage.out"; "coverage.html"].

(** The body of the [for] loop of [clean]. *)
Definition clean_entry (path : string) : M unit :=
  let full_path := Path path in
  ex ← fs_exists full_path;
  if ex then
    (d ← fs_is_dir full_path;
     if d then
       print_info ("Removing directory: " +:+ path);;
       rmtree full_path
     else
       print_info ("Removing file: " +:+ path);;
       unlink full_path);;
    print_success ("Removed: " +:+ path)
  else
    print_info ("Skipping (not found): " +:+ path).

Fixpoint for_each {A} (l : list A) (body : A → M unit) : M unit :=
  match l with
  | [] => mret tt
  | x :: rest => body x;; for_each rest body
  end.

Definition clean : M bool :=
  print_header "Cleaning Build Artifacts";;
  for_each paths_to_remove clean_entry;;
  print_success "Clean complete";;
  mret true.

Definition deps : M bool :=
  print_header "Installing Dependencies";;
  print_info "Installing Go dependencies...";;
  ok ← run_command ["go"; "mod"; "download"] None true;
  if negb ok then mret false
  else
    ok ← run_command ["go"; "mod"; "tidy"] None true;
    if negb ok then mret false
    else
      print_success "Go dependencies installed";;
      let frontend_dir := Path "frontend" in
      ex ← fs_exists frontend_dir;
      if ex then
        print_info "Installing frontend dependencies...";;
        ok ← run_command ["npm"; "install"] (Some frontend_dir) true;
        if ok then
          print_success "Frontend dependencies installed";;
          mret true
        else mret false
      else
        print_warning "Frontend directory not found, skipping npm install";;
        mret true.

Definition lint : M bool :=
  print_header "Running Linter";;
  ok ← run_command ["golangci-lint"; "run"; "./..."] None false;
  if ok then
    print_success "Linting complete";;
    mret true
  else
    print_error "Linting failed (or golangci-lint not installed)";;
    mret false.

Definition install_wails : M bool :=
  print_header "Installing Wails";;
  ok ← run_command
         ["go"; "install"; "github.com/wailsapp/wails/v2/cmd/wails@latest"]
         None true;
  if ok then
    print_success "Wails installed successfully";;
    mret true
  else mret false.

Definition generate : M bool :=
  print_header "Generating Wails Bindings";;
  ok ← run_command ["wails"; "generate"; "module"] None true;
  if ok then
    print_success "Bindings generated";;
    mret true
  else mret false.

Definition doctor : M bool :=
  print_header "Checking Wails Setup";;
  run_command ["wails"; "doctor"] None true.

(** The [choices] of the positional argument. *)
Inductive Command :=
  | CmdDev | CmdBuild | CmdTest | CmdClean | CmdDeps | CmdLint
  | CmdInstallWails | CmdGenerate | CmdDoctor.

(** The namespace [parser.parse_args()] returns. *)
Record Args := mkArgs {
  arg_command : Command;
  arg_coverage : bool;
  arg_clean : bool;
  arg_upx : bool
}.

(** [main] after argument parsing.  [sys.exit] raises [SystemExit]. *)
Definition main (args : Args) : M unit :=
  success ←
    match arg_command args with
    | CmdDev => dev
    | CmdBuild => build (arg_clean args) (arg_upx args)
    | CmdTest => test (arg_coverage args)
    | CmdClean => clean
    | CmdDeps => deps
    | CmdLint => lint
    | CmdInstallWails => install_wails
    | CmdGenerate => generate
    | CmdDoctor => doctor
    end;
  if success then
    emit (Print Plain "Success!");;
    raise (SystemExit 0)
  else
    emit (Print Plain "Failed!");;
    raise (SystemExit 1).

(** ** [run.py] *)

(** [sys.executable] and [str(build_script)], the path of [build.py]
    next to the wrapper. *)
Context (sys_executable build_script : string).

(** The whole script; [argv] is [sys.argv].  Both calls of
    [subprocess.run] leave [check] at its default, [False]. *)
Definition run_py (argv : list string) : M unit :=
  (if (length argv =? 1)%nat then
     _ ← subprocess_run [sys_executable; build_script; "--help"] None false;
     raise (SystemExit 0)
   else mret tt);;
  _ ← subprocess_run ([sys_executable; build_script] ++ drop 1 argv) None false;
  mret tt.

End build_py.

(** The exit status of the interpreter for a finished script: 0 when
    the script runs to its end, the argument of [sys.exit], and 1
    after an uncaught exception. *)
Definition exit_code {A} (r : Res A) : Z :=
  match r with
  | Return _ => 0
  | Raise (SystemExit c) => c
  | Raise _ => 1
  end.

(** ** Notions used to state the properties *)

(** What [run_command] prints once the process of [c0 :: args] has
    ended as [o]. *)
Definition run_diagnostic (c0 : string) (check : bool) (o : Outcome) :
    list Event :=
  match o with
  | NotFound => [Print Error ("Command not found: " +:+ c0)]
  | Exited rc =>
      if check && negb (rc =? 0)
      then [Print Error ("Command failed with exit code " +:+ pretty rc)]
      else []
  end.

(** How often the command line [c] was started. *)
Definition count_cmd (c : list string) (es : list Event) : nat :=
  length (filter (λ inv, cmd inv = c) (invocations es)).

(** Removing the entry at [p] (if any) raises no file-system error:
    a directory is removed by [rmtree], anything else by [unlink]. *)
Definition removable (m : FS) (p : string) : bool :=
  match m !! p with
  | None => true
  | Some n =>
      if node_is_dir n then all_unlocked (subtree p m)
      else negb (node_locked n)
  end.

(** No removal that [clean] attempts on [m] raises a file-system
    error. *)
Definition removals_succeed (m : FS) : Prop :=
  Forall (λ path, removable m (Path path) = true) paths_to_remove.

(** The file system after the entry at [p] (if any) is removed. *)
Definition remove_entry (p : string) (m : FS) : FS :=
  match m !! p with
  | None => m
  | Some n => if node_is_dir n then prune p m else delete p m
  end.

(** The file system after the entries of all paths of [l] are removed,
    in order. *)
Definition remove_all (l : list string) (m : FS) : FS :=
  foldl (λ m path, remove_entry (Path path) m) m l.

(** What [clean] prints for the entry [path] on the file system [m]
    when the removal succeeds. *)
Definition entry_report (m : FS) (path : string) : list Event :=
  match m !! Path path with
  | None => [Print Info ("Skipping (not found): " +:+ path)]
  | Some n =>
      [Print Info ((if node_is_dir n then "Removing directory: "
                    else "Removing file: ") +:+ path);
       Print Success ("Removed: " +:+ path)]
  end.

Definition is_removed_report (e : Event) : bool :=
  match e with
  | Print Success msg => String.prefix "Removed: " msg
  | _ => false
  end.

Definition is_skipped_report (e : Event) : bool :=
  match e with
  | Print Info msg => String.prefix "Skipping (not found): " msg
  | _ => false
  end.

(** No path of the list is at or below another one. *)
Fixpoint apart (l : list string) : bool :=
  match l with
  | [] => true
  | p :: rest =>
      forallb (λ q, negb (under p q) && negb (under q p)) rest && apart rest
  end.

(** The [if]/[elif] chain of [main]: the function the command selects,
    applied to the options it takes. *)
Definition handler (spawn : list string → option string → FS → Outcome * FS)
    (args : Args) : M bool :=
  match arg_command args with
  | CmdDev => dev spawn
  | CmdBuild => build spawn (arg_clean args) (arg_upx args)
  | CmdTest => test spawn (arg_coverage args)
  | CmdClean => clean
  | CmdDeps => deps spawn
  | CmdLint => lint spawn
  | CmdInstallWails => install_wails spawn
  | CmdGenerate => generate spawn
  | CmdDoctor => doctor spawn
  end.

(** What [clean] prints for the entry [path] before a removal that
    raises. *)
Definition attempt_report (m : FS) (path : string) : list Event :=
  match m !! Path path with
  | None => []
  | Some n =>
      [Print Info ((if node_is_dir n then "Removing directory: "
                    else "Removing file: ") +:+ path)]
  end.

(** The report [clean] gives for a listed path when the run succeeds. *)
Definition final_report (m : FS) (path : string) : Event :=
  if bool_decide (is_Some (m !! Path path))
  then Print Success ("Removed: " +:+ path)
  else Print Info ("Skipping (not found): " +:+ path).

(** What a run of [clean] over the paths [l] may do to the world: it
    only removes entries, it leaves every entry that is not at or below
    one of the paths as it was, and it adds only printed lines to the
    trace. *)
Definition cleaned (l : list string) (w w' : World) : Prop :=
  fs w' ⊆ fs w ∧
  (∀ k, (∀ path, path ∈ l → under (Path path) k = false) →
        fs w' !! k = fs w !! k) ∧
  ∃ es, trace w' = trace w ++ es ∧ invocations es = [].

(** ** Sample environments *)

(** Every process ends the same way and leaves the files alone. *)
Definition spawn_const (o : Outcome) :
    list string → option string → FS → Outcome * FS :=
  λ _ _ m, (o, m).

(** Every process exits with 0, except [bad], which ends as [o]. *)
Definition spawn_except (bad : list string) (o : Outcome) :
    list string → option string → FS → Outcome * FS :=
  λ c _ m, (if decide (c = bad) then o else Exited 0, m).

Definition regular_file : Node := mkNode false false.
Definition locked_file : Node := mkNode false true.
Definition directory : Node := mkNode true false.

Definition empty_world : World := mkWorld ∅ [].

Definition coverage_files : FS :=
  {[ "coverage.out" := regular_file; "coverage.html" := regular_file ]}.

Definition coverage_files_locked : FS :=
  {[ "coverage.out" := locked_file; "coverage.html" := regular_file ]}.

Definition frontend_as_file : FS := {[ "frontend" := regular_file ]}.

Definition full_tree : FS :=
  list_to_map
    [("build", directory); ("build/bin", directory);
     ("build/bin/app", regular_file);
     ("frontend", directory); ("frontend/dist", directory);
     ("frontend/dist/index.html", regular_file);
     ("frontend/src", directory);
     ("coverage.out", regular_file)].

(** Every child process is [build.py lint], itself run over the
    environment [inner]: it ends with the exit status of [main]. *)
Definition spawn_build_lint
    (inner : list string → option string → FS → Outcome * FS) :
    list string → option string → FS → Outcome * FS :=
  λ _ _ m,
    let r := main inner (mkArgs CmdLint false false false) (mkWorld m []) in
    (Exited (exit_code r.1), fs r.2).

(** * Properties *)

(** ** The monad and the trace *)

Lemma new_events_app w es m :
  new_events w (mkWorld m (trace w ++ es)) = es.
Proof. unfold new_events. simpl. apply drop_app_length. Qed.

Lemma succeeded_true o : succeeded o = true ↔ o = Exited 0.
Proof.
  destruct o as [rc|]; simpl; [|split; discriminate].
  rewrite Z.eqb_eq. split; [congruence | intros [= ->]; reflexivity].
Qed.

Lemma succeeded_false o :
  succeeded o = false ↔ o = NotFound ∨ ∃ rc, o = Exited rc ∧ rc ≠ 0.
Proof.
  destruct o as [rc|]; simpl.
  - rewrite Z.eqb_neq. split.
    + intros H. right. exists rc. auto.
    + intros [[=] | (rc' & [= <-] & H)]. exact H.
  - split; auto.
Qed.

Lemma invocations_run_diagnostic c0 check o :
  invocations (run_diagnostic c0 check o) = [].
Proof.
  destruct o as [rc|]; simpl; [|reflexivity].
  destruct (check && negb (rc =? 0)); reflexivity.
Qed.

Lemma invocations_app es es' :
  invocations (es ++ es') = invocations es ++ invocations es'.
Proof.
  apply omap_app.
Qed.

Lemma invocations_print l msg es :
  invocations (Print l msg :: es) = invocations es.
Proof. reflexivity. Qed.

Lemma invocations_spawn inv es :
  invocations (Spawn inv :: es) = inv :: invocations es.
Proof. reflexivity. Qed.

Lemma invocations_nil : invocations [] = [].
Proof. reflexivity. Qed.

Ltac calls :=
  repeat first
    [ rewrite invocations_app | rewrite invocations_print
    | rewrite invocations_spawn | rewrite invocations_run_diagnostic
    | rewrite invocations_nil ];
  cbn [app].

Ltac norm_trace := simpl; rewrite <- ?app_assoc; simpl.

(** ** [run_command] *)

Section run_command_facts.

Context (spawn : list string → option string → FS → Outcome * FS).

Lemma cwd_error_cases (m : FS) cwd :
  cwd_error m cwd = None ∨
  cwd_error m cwd = Some FileNotFoundError ∨
  cwd_error m cwd = Some NotADirectoryError.
Proof.
  unfold cwd_error. destruct cwd as [d|]; [|auto].
  destruct (m !! d) as [n|]; [|auto]. destruct (node_is_dir n); auto.
Qed.

Lemma launch_started cmd cwd (m : FS) :
  cwd_error m cwd = None →
  launch spawn cmd cwd m = (inr (spawn cmd cwd m).1, (spawn cmd cwd m).2).
Proof. unfold launch. intros ->. destruct (spawn cmd cwd m); reflexivity. Qed.

Lemma launch_refused cmd cwd (m : FS) e :
  cwd_error m cwd = Some e → launch spawn cmd cwd m = (inl e, m).
Proof. unfold launch. intros ->. reflexivity. Qed.

(** One run of [run_command] whose process is started, in closed
    form: the result is the success of the process, and the trace
    grows by the "Running" line, the invocation and the diagnostic. *)
Lemma run_command_eq c0 args cwd check w :
  cwd_error (fs w) cwd = None →
  run_command spawn (c0 :: args) cwd check w =
  (Return (succeeded (spawn (c0 :: args) cwd (fs w)).1),
   mkWorld (spawn (c0 :: args) cwd (fs w)).2
     (trace w ++
        Print Info ("Running: " +:+ String.concat " " (c0 :: args)) ::
        Spawn (mkInvocation (c0 :: args) cwd check) ::
        run_diagnostic c0 check (spawn (c0 :: args) cwd (fs w)).1)).
Proof.
  intros Hcwd.
  unfold run_command, bind, try_except, subprocess_run, print_info,
    print_error, emit, mret, M_ret, ret.
  cbn [fs trace]. rewrite launch_started by exact Hcwd.
  destruct (spawn (c0 :: args) cwd (fs w)) as [[rc|] m]; cbn [fst snd].
  - unfold run_diagnostic, succeeded.
    destruct check, (rc =? 0) eqn:E; cbn [andb negb fs trace];
      rewrite <- ?app_assoc, ?E; reflexivity.
  - cbn [fs trace]. rewrite <- ?app_assoc. reflexivity.
Qed.

(** [run_command] with a working directory that does not exist: the
    [FileNotFoundError] of [subprocess.run] is reported like a missing
    executable. *)
Lemma run_command_cwd_missing c0 args cwd check w :
  cwd_error (fs w) cwd = Some FileNotFoundError →
  run_command spawn (c0 :: args) cwd check w =
  (Return false,
   mkWorld (fs w)
     (trace w ++
        [Print Info ("Running: " +:+ String.concat " " (c0 :: args));
         Spawn (mkInvocation (c0 :: args) cwd check);
         Print Error ("Command not found: " +:+ c0)])).
Proof.
  intros Hcwd.
  unfold run_command, bind, try_except, subprocess_run, print_info,
    print_error, emit, mret, M_ret, ret.
  cbn [fs trace]. rewrite (launch_refused _ _ _ _ Hcwd).
  cbn [fs trace]. rewrite <- ?app_assoc. reflexivity.
Qed.

(** [run_command] with a working directory that is not a directory:
    the [NotADirectoryError] of [subprocess.run] matches no [except]
    clause and leaves [run_command]. *)
Lemma run_command_cwd_not_directory c0 args cwd check w :
  cwd_error (fs w) cwd = Some NotADirectoryError →
  run_command spawn (c0 :: args) cwd check w =
  (Raise NotADirectoryError,
   mkWorld (fs w)
     (trace w ++
        [Print Info ("Running: " +:+ String.concat " " (c0 :: args));
         Spawn (mkInvocation (c0 :: args) cwd check)])).
Proof.
  intros Hcwd.
  unfold run_command, bind, try_except, subprocess_run, print_info,
    print_error, emit, mret, M_ret, ret.
  cbn [fs trace]. rewrite (launch_refused _ _ _ _ Hcwd).
  cbn [fs trace]. rewrite <- ?app_assoc. reflexivity.
Qed.

End run_command_facts.

Ltac unfold_prog :=
  cbv beta delta [bind print_header print_success print_error print_info
                  print_warning raise emit mret M_ret ret fs_exists];
  cbn [fs trace fst snd].

Ltac step_run :=
  rewrite run_command_eq by first [reflexivity | assumption];
  cbn [fs trace fst snd].

(** Closes a goal about the result and the invocations of a finished
    run. *)
Ltac settle :=
  cbn [fs trace fst snd negb andb];
  rewrite <- ?app_assoc; rewrite ?new_events_app;
  unfold count_cmd; cbn [app]; calls;
  repeat split; reflexivity.

Section dispatch_facts.

Context (spawn : list string → option string → FS → Outcome * FS).

Lemma filter_run_diagnostic c0 check o :
  filter is_diagnostic (run_diagnostic c0 check o) = run_diagnostic c0 check o.
Proof.
  destruct o as [rc|]; simpl; [|reflexivity].
  destruct (check && negb (rc =? 0)); reflexivity.
Qed.

(** C3 (amended): [run_command] returns [true] exactly when the
    executable was found and exited with code 0.  When the executable
    is not found and when it exits with a non-zero code,
    [run_command] returns [false] instead of letting the exception
    out.  A missing executable is reported as "Command not found:
    <executable>"; a non-zero exit is reported as "Command failed with
    exit code N" when [check] is set (the default) and is not reported
    by [run_command] at all when [check] is unset; the two diagnostics
    are never equal.  Each run is one call of [subprocess.run]. *)
Theorem run_command_outcome c0 args cwd check w :
  let l := (launch spawn (c0 :: args) cwd (fs w)).1 in
  let r := run_command spawn (c0 :: args) cwd check w in
  (r.1 = Return true ↔ l = inr (Exited 0)) ∧
  (l = inr (Exited 0) → filter is_diagnostic (new_events w r.2) = []) ∧
  (l = inr NotFound →
     r.1 = Return false ∧
     filter is_diagnostic (new_events w r.2) =
       [Print Error ("Command not found: " +:+ c0)]) ∧
  (∀ rc, l = inr (Exited rc) → rc ≠ 0 →
     r.1 = Return false ∧
     filter is_diagnostic (new_events w r.2) =
       if check
       then [Print Error ("Command failed with exit code " +:+ pretty rc)]
       else []) ∧
  invocations (new_events w r.2) = [mkInvocation (c0 :: args) cwd check] ∧
  ∀ rc : Z, "Command not found: " +:+ c0 ≠
            "Command failed with exit code " +:+ pretty rc.
Proof.
  intros l r.
  assert (Hne : ∀ rc : Z, "Command not found: " +:+ c0 ≠
                          "Command failed with exit code " +:+ pretty rc).
  { intros rc H. cbn in H. discriminate H. }
  subst l r.
  destruct (cwd_error_cases (fs w) cwd) as [Hcwd|[Hcwd|Hcwd]].
  - rewrite launch_started, run_command_eq by exact Hcwd. cbn [fst snd].
    rewrite new_events_app.
    destruct (spawn (c0 :: args) cwd (fs w)).1 as [rc|];
      cbn [succeeded run_diagnostic].
    + split; [|split; [|split; [|split; [|split; [|exact Hne]]]]].
      * split.
        -- intros [= H]. apply Z.eqb_eq in H. subst rc. reflexivity.
        -- intros [= ->]. reflexivity.
      * intros [= ->]. destruct check; reflexivity.
      * discriminate.
      * intros rc' [= <-] Hrc. apply Z.eqb_neq in Hrc. rewrite Hrc.
        destruct check; split; reflexivity.
      * destruct (check && negb (rc =? 0)); reflexivity.
    + repeat split; try exact Hne; try discriminate; reflexivity.
  - rewrite (launch_refused _ _ _ _ _ Hcwd).
    rewrite run_command_cwd_missing by exact Hcwd. cbn [fst snd].
    rewrite new_events_app.
    repeat split; try exact Hne; try discriminate; reflexivity.
  - rewrite (launch_refused _ _ _ _ _ Hcwd).
    rewrite run_command_cwd_not_directory by exact Hcwd. cbn [fst snd].
    rewrite new_events_app.
    repeat split; try exact Hne; try discriminate; reflexivity.
Qed.

(** C7: [build] starts exactly one process, whose command line is the
    base ["wails"; "build"] followed by ["-clean"] when [clean] is set
    and then by ["-upx"] when [upx] is set; with both set it is
    ["wails"; "build"; "-clean"; "-upx"], and a marker occurs in the
    command line only when its option is set. *)
Theorem build_command_line clean upx w :
  ∃ c,
    invocations (new_events w (build spawn clean upx w).2) =
      [mkInvocation c None true] ∧
    c = ["wails"; "build"] ++ (if clean then ["-clean"] else [])
                           ++ (if upx then ["-upx"] else []) ∧
    (clean = true → upx = true → c = ["wails"; "build"; "-clean"; "-upx"]) ∧
    ("-clean" ∈ c ↔ clean = true) ∧
    ("-upx" ∈ c ↔ upx = true).
Proof.
  exists (["wails"; "build"] ++ (if clean then ["-clean"] else [])
                             ++ (if upx then ["-upx"] else [])).
  split.
  { unfold build. unfold_prog.
    destruct clean, upx; cbn [app]; step_run;
      rewrite <- app_assoc, new_events_app; cbn [app]; calls; reflexivity. }
  split; [reflexivity|].
  split; [intros -> ->; reflexivity|].
  destruct clean, upx; cbn [app]; rewrite !list_elem_of_In; simpl;
    intuition discriminate.
Qed.

(** C8: [lint] starts exactly one process, the linter with [check]
    unset, and always returns; it returns [false] exactly when the
    linter exited with a non-zero code or was not found, and [true]
    exactly when the linter exited with code 0. *)
Theorem lint_single_tolerant_call w :
  let o := (spawn ["golangci-lint"; "run"; "./..."] None (fs w)).1 in
  let r := lint spawn w in
  invocations (new_events w r.2) =
    [mkInvocation ["golangci-lint"; "run"; "./..."] None false] ∧
  r.1 = Return (succeeded o) ∧
  (r.1 = Return false ↔ o = NotFound ∨ ∃ rc, o = Exited rc ∧ rc ≠ 0) ∧
  (r.1 = Return true ↔ o = Exited 0).
Proof.
  intros o r.
  assert (Hr : r.1 = Return (succeeded o) ∧
               invocations (new_events w r.2) =
                 [mkInvocation ["golangci-lint"; "run"; "./..."] None false]).
  { subst r. unfold lint. unfold_prog. step_run. fold o.
    destruct (succeeded o); settle. }
  destruct Hr as [Hres Hcalls].
  split; [exact Hcalls|]. split; [exact Hres|].
  rewrite Hres, <- succeeded_false, <- succeeded_true.
  split; split; congruence.
Qed.

(** C1: [test] with coverage and a failing test run starts only the
    test run and returns [false]; with coverage and a succeeding test
    run it starts the test run and then exactly one report generation
    and returns the conjunction of both successes; without coverage it
    starts only the test run, never the report generation, and returns
    the success of the test run. *)
Theorem test_report_after_passing_tests w :
  let t := spawn test_coverage_cmd None (fs w) in
  let g := spawn cover_report_cmd None t.2 in
  let p := spawn test_plain_cmd None (fs w) in
  let rc := test spawn true w in
  let rp := test spawn false w in
  (succeeded t.1 = false →
     rc.1 = Return false ∧
     invocations (new_events w rc.2) =
       [mkInvocation test_coverage_cmd None true] ∧
     count_cmd cover_report_cmd (new_events w rc.2) = 0%nat) ∧
  (succeeded t.1 = true →
     rc.1 = Return (succeeded t.1 && succeeded g.1) ∧
     invocations (new_events w rc.2) =
       [mkInvocation test_coverage_cmd None true;
        mkInvocation cover_report_cmd None true] ∧
     count_cmd cover_report_cmd (new_events w rc.2) = 1%nat) ∧
  (rp.1 = Return (succeeded p.1) ∧
   invocations (new_events w rp.2) = [mkInvocation test_plain_cmd None true] ∧
   count_cmd cover_report_cmd (new_events w rp.2) = 0%nat).
Proof.
  intros t g p rc rp.
  split; [|split].
  - intros Ht. subst rc. unfold test, test_coverage_cmd. unfold_prog. step_run.
    fold test_coverage_cmd. fold t. rewrite Ht. settle.
  - intros Ht. subst rc. unfold test, test_coverage_cmd. unfold_prog. step_run.
    fold test_coverage_cmd. fold t. rewrite Ht. cbn [negb fs trace fst snd].
    unfold cover_report_cmd. step_run. fold cover_report_cmd. fold g.
    destruct (succeeded g.1); settle.
  - subst rp. unfold test, test_plain_cmd. unfold_prog. step_run.
    fold test_plain_cmd. fold p.
    destruct (succeeded p.1); settle.
Qed.

(** C4: when the module download fails, [deps] starts exactly one
    process, the download, starts neither the tidy step nor the
    frontend install, and returns [false]. *)
Theorem deps_download_failure_stops w :
  succeeded (spawn ["go"; "mod"; "download"] None (fs w)).1 = false →
  (deps spawn w).1 = Return false ∧
  invocations (new_events w (deps spawn w).2) =
    [mkInvocation ["go"; "mod"; "download"] None true] ∧
  count_cmd ["go"; "mod"; "tidy"] (new_events w (deps spawn w).2) = 0%nat ∧
  count_cmd ["npm"; "install"] (new_events w (deps spawn w).2) = 0%nat.
Proof.
  intros Hd. unfold deps. unfold_prog. step_run. rewrite Hd. settle.
Qed.

(** X5: [deps] once both module steps succeeded and [frontend]
    exists and is a directory: the install runs in that directory and
    decides the result. *)
Lemma deps_frontend_present w entry :
  let d := spawn ["go"; "mod"; "download"] None (fs w) in
  let t := spawn ["go"; "mod"; "tidy"] None d.2 in
  let n := spawn ["npm"; "install"] (Some "frontend") t.2 in
  succeeded d.1 = true → succeeded t.1 = true →
  t.2 !! "frontend" = Some entry → node_is_dir entry = true →
  (deps spawn w).1 = Return (succeeded n.1) ∧
  invocations (new_events w (deps spawn w).2) =
    [mkInvocation ["go"; "mod"; "download"] None true;
     mkInvocation ["go"; "mod"; "tidy"] None true;
     mkInvocation ["npm"; "install"] (Some "frontend") true].
Proof.
  intros d t n Hd Ht Hen Hdir. unfold deps. unfold_prog. step_run. fold d.
  rewrite Hd. cbn [negb fs trace fst snd]. step_run. fold t. rewrite Ht.
  cbn [negb fs trace fst snd]. change (Path "frontend") with "frontend".
  rewrite bool_decide_eq_true_2 by (rewrite Hen; eauto).
  rewrite run_command_eq
    by (unfold cwd_error; cbn [fs]; rewrite Hen, Hdir; reflexivity).
  cbn [fs trace fst snd]. fold n.
  destruct (succeeded n.1); settle.
Qed.

(** X17: [deps] once both module steps succeeded and [frontend] exists
    but is not a directory: [subprocess.run] cannot use it as working
    directory, and its [NotADirectoryError] leaves [run_command] and
    [deps]; nothing is returned. *)
Lemma deps_frontend_not_directory w entry :
  let d := spawn ["go"; "mod"; "download"] None (fs w) in
  let t := spawn ["go"; "mod"; "tidy"] None d.2 in
  succeeded d.1 = true → succeeded t.1 = true →
  t.2 !! "frontend" = Some entry → node_is_dir entry = false →
  (deps spawn w).1 = Raise NotADirectoryError ∧
  fs (deps spawn w).2 = t.2.
Proof.
  intros d t Hd Ht Hen Hdir. unfold deps. unfold_prog. step_run. fold d.
  rewrite Hd. cbn [negb fs trace fst snd]. step_run. fold t. rewrite Ht.
  cbn [negb fs trace fst snd]. change (Path "frontend") with "frontend".
  rewrite bool_decide_eq_true_2 by (rewrite Hen; eauto).
  rewrite run_command_cwd_not_directory
    by (unfold cwd_error; cbn [fs]; rewrite Hen, Hdir; reflexivity).
  split; reflexivity.
Qed.

(** X6: [deps] once both module steps succeeded and the frontend
    directory does not exist: no install is started, and the call of
    the undefined [print_warning] raises [NameError] before the
    [return True] is reached. *)
Lemma deps_frontend_absent w :
  let d := spawn ["go"; "mod"; "download"] None (fs w) in
  let t := spawn ["go"; "mod"; "tidy"] None d.2 in
  succeeded d.1 = true → succeeded t.1 = true →
  t.2 !! "frontend" = None →
  (deps spawn w).1 = Raise (NameError "print_warning") ∧
  invocations (new_events w (deps spawn w).2) =
    [mkInvocation ["go"; "mod"; "download"] None true;
     mkInvocation ["go"; "mod"; "tidy"] None true].
Proof.
  intros d t Hd Ht Hex. unfold deps. unfold_prog. step_run. fold d.
  rewrite Hd. cbn [negb fs trace fst snd]. step_run. fold t. rewrite Ht.
  cbn [negb fs trace fst snd]. change (Path "frontend") with "frontend".
  rewrite bool_decide_eq_false_2 by (rewrite Hex; apply is_Some_None).
  settle.
Qed.

End dispatch_facts.

(** C2 (the code departs from it): with both module steps succeeding
    and no frontend directory, [deps] starts no frontend install but
    does not return success: it raises [NameError] for the undefined
    [print_warning], and [build.py deps] ends with exit status 1. *)
Theorem deps_without_frontend_raises :
  let r := deps (spawn_const (Exited 0)) empty_world in
  fs empty_world !! Path "frontend" = None ∧
  r.1 = Raise (NameError "print_warning") ∧
  r.1 ≠ Return true ∧
  invocations (new_events empty_world r.2) =
    [mkInvocation ["go"; "mod"; "download"] None true;
     mkInvocation ["go"; "mod"; "tidy"] None true] ∧
  exit_code (main (spawn_const (Exited 0))
               (mkArgs CmdDeps false false false) empty_world).1 = 1.
Proof.
  cbv zeta. split; [reflexivity|]. split; [reflexivity|].
  split; [discriminate|]. split; reflexivity.
Qed.

(** ** [run.py] *)

Section run_py_facts.

Context (spawn : list string → option string → FS → Outcome * FS).
Context (sys_executable build_script : string).

(** C10: whenever the interpreter can be started on [build.py], the
    wrapper starts exactly one child process, with [check] unset, and
    ends with exit status 0 whatever the exit code of the child; with
    no arguments the child is [build.py --help], otherwise it gets the
    arguments of the wrapper. *)
Theorem run_py_exit_status_zero argv w :
  (∀ args,
     (spawn (sys_executable :: build_script :: args) None (fs w)).1 ≠ NotFound) →
  let r := run_py spawn sys_executable build_script argv w in
  exit_code r.1 = 0 ∧
  invocations (new_events w r.2) =
    [mkInvocation
       (sys_executable :: build_script ::
          (if (length argv =? 1)%nat then ["--help"] else drop 1 argv))
       None false].
Proof.
  intros Hfound r. subst r. unfold run_py, subprocess_run, launch. unfold_prog.
  cbn [cwd_error].
  destruct (length argv =? 1)%nat.
  - specialize (Hfound ["--help"]).
    destruct (spawn [sys_executable; build_script; "--help"] None (fs w))
      as [[rc|] m]; [|exfalso; apply Hfound; reflexivity].
    settle.
  - specialize (Hfound (drop 1 argv)). cbn [app].
    destruct (spawn (sys_executable :: build_script :: drop 1 argv) None (fs w))
      as [[rc|] m]; [|exfalso; apply Hfound; reflexivity].
    settle.
Qed.

End run_py_facts.

(** ** [clean] *)

Lemma under_refl p : under p p = true.
Proof. unfold under. rewrite String.eqb_refl. reflexivity. Qed.

Lemma under_ne p q : under p q = false → p ≠ q.
Proof. intros H ->. rewrite under_refl in H. discriminate. Qed.

Lemma prune_lookup_other p q (m : FS) :
  under p q = false → prune p m !! q = m !! q.
Proof.
  intros H. unfold prune. destruct (m !! q) as [n|] eqn:Hq.
  - apply map_lookup_filter_Some. split; [exact Hq|].
    simpl. rewrite H. auto.
  - apply map_lookup_filter_None. left. exact Hq.
Qed.

Lemma prune_lookup_self p (m : FS) : prune p m !! p = None.
Proof.
  unfold prune. apply map_lookup_filter_None. right.
  intros n _ Hn. apply Hn. simpl. rewrite under_refl. exact I.
Qed.

Lemma remove_entry_subseteq p (m : FS) : remove_entry p m ⊆ m.
Proof.
  unfold remove_entry. destruct (m !! p) as [n|]; [|reflexivity].
  destruct (node_is_dir n); [apply map_filter_subseteq | apply delete_subseteq].
Qed.

Lemma remove_entry_lookup_self p (m : FS) : remove_entry p m !! p = None.
Proof.
  unfold remove_entry. destruct (m !! p) as [n|] eqn:Hp; [|exact Hp].
  destruct (node_is_dir n); [apply prune_lookup_self | apply lookup_delete_eq].
Qed.

Lemma remove_entry_lookup_other p q (m : FS) :
  under p q = false → remove_entry p m !! q = m !! q.
Proof.
  intros H. unfold remove_entry. destruct (m !! p) as [n|]; [|reflexivity].
  destruct (node_is_dir n).
  - apply prune_lookup_other, H.
  - apply lookup_delete_ne, under_ne, H.
Qed.

Lemma remove_entry_absent p (m : FS) : m !! p = None → remove_entry p m = m.
Proof. intros H. unfold remove_entry. rewrite H. reflexivity. Qed.

Lemma all_unlocked_mono q (m m' : FS) :
  m' ⊆ m → all_unlocked (subtree q m) = true → all_unlocked (subtree q m') = true.
Proof.
  unfold all_unlocked. intros Hsub H.
  apply bool_decide_eq_true in H. apply bool_decide_eq_true.
  intros k n Hk. apply (H k n).
  eapply lookup_weaken; [exact Hk|].
  apply map_filter_subseteq_mono, Hsub.
Qed.

(** A removal that succeeds keeps succeeding when other entries
    disappear. *)
Lemma removable_mono q (m m' : FS) :
  m' ⊆ m → m' !! q = m !! q → removable m q = true → removable m' q = true.
Proof.
  unfold removable. intros Hsub ->. destruct (m !! q) as [n|]; [|auto].
  destruct (node_is_dir n); [apply all_unlocked_mono, Hsub | auto].
Qed.

Lemma entry_report_lookup (m m' : FS) path :
  m' !! Path path = m !! Path path → entry_report m' path = entry_report m path.
Proof. unfold entry_report. intros ->. reflexivity. Qed.

(** One round of the loop, in closed form, when the removal succeeds. *)
Lemma clean_entry_eq path w :
  removable (fs w) (Path path) = true →
  clean_entry path w =
  (Return tt,
   mkWorld (remove_entry (Path path) (fs w))
           (trace w ++ entry_report (fs w) path)).
Proof.
  unfold removable, remove_entry, entry_report. intros H.
  unfold clean_entry, fs_is_dir, rmtree, unlink. unfold_prog.
  destruct (fs w !! Path path) as [n|] eqn:Hp.
  - rewrite bool_decide_eq_true_2 by (rewrite ?Hp; eauto).
    rewrite ?Hp. cbn [from_option].
    destruct (node_is_dir n) eqn:Hd; cbn [fs trace]; rewrite ?Hp, ?Hd.
    + rewrite H. cbn [andb fs trace]. rewrite <- app_assoc. reflexivity.
    + apply negb_true_iff in H. rewrite H. cbn [orb fs trace].
      rewrite <- app_assoc. reflexivity.
  - rewrite bool_decide_eq_false_2 by (rewrite ?Hp; apply is_Some_None).
    destruct w; reflexivity.
Qed.

(** One round of the loop when the removal fails: the error leaves
    [clean_entry]. *)
Lemma clean_entry_raises path w :
  removable (fs w) (Path path) = false →
  (clean_entry path w).1 = Raise (OSError (Path path)).
Proof.
  unfold removable. intros H.
  unfold clean_entry, fs_is_dir, rmtree, unlink. unfold_prog.
  destruct (fs w !! Path path) as [n|] eqn:Hp; [|discriminate].
  rewrite bool_decide_eq_true_2 by (rewrite ?Hp; eauto).
  rewrite ?Hp. cbn [from_option].
  destruct (node_is_dir n) eqn:Hd; cbn [fs trace]; rewrite ?Hp, ?Hd.
  - rewrite H. reflexivity.
  - apply negb_false_iff in H. rewrite H. reflexivity.
Qed.

Lemma remove_all_subseteq l (m : FS) : remove_all l m ⊆ m.
Proof.
  revert m. induction l as [|p l IH]; intros m; [reflexivity|].
  simpl. etrans; [apply IH | apply remove_entry_subseteq].
Qed.

Lemma remove_all_lookup l (m : FS) path :
  path ∈ l → remove_all l m !! Path path = None.
Proof.
  revert m. induction l as [|p l IH]; intros m Hin.
  - inversion Hin.
  - simpl. apply elem_of_cons in Hin as [->|Hin]; [|apply IH, Hin].
    eapply lookup_weaken_None; [apply remove_entry_lookup_self|].
    apply remove_all_subseteq.
Qed.

Lemma remove_all_absent l (m : FS) :
  (∀ path, path ∈ l → m !! Path path = None) → remove_all l m = m.
Proof.
  revert m. induction l as [|p l IH]; intros m H; [reflexivity|].
  simpl. rewrite remove_entry_absent by (apply H; left).
  apply IH. intros path Hin. apply H. right. exact Hin.
Qed.

(** The whole loop, in closed form, over paths that are apart. *)
Lemma for_each_clean_eq l : ∀ w,
  apart (Path <$> l) = true →
  Forall (λ path, removable (fs w) (Path path) = true) l →
  for_each l clean_entry w =
  (Return tt,
   mkWorld (remove_all l (fs w))
           (trace w ++ concat (entry_report (fs w) <$> l))).
Proof.
  induction l as [|p l IH]; intros w Hap Hrm.
  - simpl. rewrite app_nil_r. destruct w; reflexivity.
  - cbn [fmap list_fmap apart] in Hap. apply andb_true_iff in Hap as [Hp Hap].
    rewrite forallb_forall in Hp.
    apply Forall_cons in Hrm as [Hrp Hrm].
    assert (Hother : ∀ path, path ∈ l →
              remove_entry (Path p) (fs w) !! Path path = fs w !! Path path).
    { intros path Hin. apply remove_entry_lookup_other.
      assert (Hpq : negb (under (Path p) (Path path)) &&
                    negb (under (Path path) (Path p)) = true).
      { apply Hp, list_elem_of_In, list_elem_of_fmap. exists path. auto. }
      apply andb_true_iff in Hpq as [Hpq _]. apply negb_true_iff, Hpq. }
    cbn [for_each]. unfold bind at 1. rewrite clean_entry_eq by exact Hrp.
    rewrite IH; cbn [fs trace].
    + f_equal. f_equal. rewrite <- app_assoc. f_equal.
      cbn [fmap list_fmap concat]. f_equal. f_equal.
      apply list_fmap_ext. intros i path Hi.
      apply entry_report_lookup, Hother. eapply list_elem_of_lookup_2, Hi.
    + exact Hap.
    + rewrite Forall_forall in Hrm. apply Forall_forall. intros path Hin.
      eapply removable_mono; [apply remove_entry_subseteq| |apply Hrm, Hin].
      apply Hother, Hin.
Qed.

Lemma paths_to_remove_apart : apart (Path <$> paths_to_remove) = true.
Proof. reflexivity. Qed.

(** [clean] in closed form on a file system where the removals
    succeed. *)
Lemma clean_eq w :
  removals_succeed (fs w) →
  clean w =
  (Return true,
   mkWorld (remove_all paths_to_remove (fs w))
     (trace w ++
        Print Header "Cleaning Build Artifacts" ::
        concat (entry_report (fs w) <$> paths_to_remove) ++
        [Print Success "Clean complete"])).
Proof.
  intros H. unfold clean. unfold_prog.
  rewrite for_each_clean_eq; [|apply paths_to_remove_apart|exact H].
  cbn [fs trace]. rewrite <- !app_assoc. reflexivity.
Qed.

Lemma removals_succeed_after_clean (m : FS) :
  removals_succeed (remove_all paths_to_remove m).
Proof.
  apply Forall_forall. intros path Hin. unfold removable.
  rewrite remove_all_lookup by exact Hin. reflexivity.
Qed.

(** C5: on every file system where no removal raises a file-system
    error, [clean] returns [true], whichever of the five listed paths
    exist; a listed path that does not exist is reported as skipped. *)
Theorem clean_returns_true w :
  removals_succeed (fs w) →
  (clean w).1 = Return true ∧
  ∀ path, path ∈ paths_to_remove → fs w !! Path path = None →
    Print Info ("Skipping (not found): " +:+ path) ∈ new_events w (clean w).2.
Proof.
  intros H. rewrite clean_eq by exact H. cbn [fst snd].
  split; [reflexivity|]. intros path Hin Hnone.
  rewrite new_events_app. right. apply elem_of_app. left.
  apply list_elem_of_In, in_concat.
  exists (entry_report (fs w) path). split.
  - apply list_elem_of_In, list_elem_of_fmap. exists path. auto.
  - unfold entry_report. rewrite Hnone. left. reflexivity.
Qed.

(** C6: [clean] is idempotent.  On every file system where the
    removals succeed, a second run leaves the file system as the first
    run left it, with all five listed paths absent, and both runs
    return [true]. *)
Theorem clean_idempotent w :
  removals_succeed (fs w) →
  let r1 := clean w in
  let r2 := clean r1.2 in
  fs r2.2 = fs r1.2 ∧
  (∀ path, path ∈ paths_to_remove → fs r1.2 !! Path path = None) ∧
  r1.1 = Return true ∧
  r2.1 = r1.1.
Proof.
  intros H r1 r2. subst r2 r1. rewrite (clean_eq w) by exact H.
  cbn [fst snd]. rewrite clean_eq by apply removals_succeed_after_clean.
  cbn [fs fst snd].
  split; [|split; [|split; reflexivity]].
  - apply remove_all_absent. intros path Hin. apply remove_all_lookup, Hin.
  - intros path Hin. apply remove_all_lookup, Hin.
Qed.

(** C9 (amended): when of the five listed paths only the coverage
    profile and the coverage report exist and removing them raises no
    file-system error, [clean] returns [true] and reports, in the order
    of the list, the three directories as skipped and then the two
    coverage files as removed: two "Removed" and three "Skipping"
    reports. *)
Theorem clean_coverage_files_only w :
  fs w !! Path "build/" = None →
  fs w !! Path "frontend/dist/" = None →
  fs w !! Path "frontend/node_modules/" = None →
  is_Some (fs w !! Path "coverage.out") →
  is_Some (fs w !! Path "coverage.html") →
  removable (fs w) (Path "coverage.out") = true →
  removable (fs w) (Path "coverage.html") = true →
  let r := clean w in
  r.1 = Return true ∧
  filter (λ e, is_removed_report e || is_skipped_report e) (new_events w r.2) =
    [Print Info "Skipping (not found): build/";
     Print Info "Skipping (not found): frontend/dist/";
     Print Info "Skipping (not found): frontend/node_modules/";
     Print Success "Removed: coverage.out";
     Print Success "Removed: coverage.html"] ∧
  length (filter is_removed_report (new_events w r.2)) = 2%nat ∧
  length (filter is_skipped_report (new_events w r.2)) = 3%nat.
Proof.
  intros Hb Hd Hn [no Ho] [nh Hh] Hro Hrh r. subst r.
  assert (Hok : removals_succeed (fs w)).
  { unfold removals_succeed, paths_to_remove, removable.
    repeat apply Forall_cons_2; try apply Forall_nil_2;
      try assumption; rewrite ?Hb, ?Hd, ?Hn; reflexivity. }
  rewrite clean_eq by exact Hok. cbn [fst snd]. rewrite new_events_app.
  unfold paths_to_remove, entry_report. cbn [fmap list_fmap concat].
  rewrite Hb, Hd, Hn, Ho, Hh.
  destruct (node_is_dir no), (node_is_dir nh); repeat split; reflexivity.
Qed.

(** *** The removals succeed exactly when [clean] does not raise *)

Lemma prefix_chain a : ∀ b k,
  String.prefix a k = true → String.prefix b k = true →
  String.prefix a b = true ∨ String.prefix b a = true.
Proof.
  induction a as [|x a IH]; intros b k Ha Hb; [left; destruct b; reflexivity|].
  destruct b as [|y b]; [right; reflexivity|].
  destruct k as [|z k]; [discriminate|].
  cbn [String.prefix] in Ha, Hb |- *.
  destruct (ascii_dec x z) as [->|]; [|discriminate].
  destruct (ascii_dec y z) as [->|]; [|discriminate].
  destruct (ascii_dec z z) as [_|Hne]; [|contradiction].
  eapply IH; eassumption.
Qed.

Lemma prefix_slash a : ∀ b,
  String.prefix (a +:+ "/") (b +:+ "/") = true →
  a = b ∨ String.prefix (a +:+ "/") b = true.
Proof.
  induction a as [|x a IH]; intros b H.
  - destruct b as [|y b]; [left; reflexivity|]. right.
    cbv beta iota delta [String.append] in H |- *. fold String.append in H.
    cbn [String.prefix] in H |- *.
    destruct (ascii_dec "/" y); [destruct b; reflexivity|discriminate].
  - destruct b as [|y b];
      cbv beta iota delta [String.append] in H |- *;
      fold String.append in H |- *; cbn [String.prefix] in H |- *.
    + destruct (ascii_dec x "/"); [|discriminate].
      destruct a; discriminate.
    + destruct (ascii_dec x y) as [->|]; [|discriminate].
      destruct (IH b H) as [->|Hp]; [left; reflexivity | right; exact Hp].
Qed.

Lemma under_eq p k :
  under p k = true ↔ p = k ∨ String.prefix (p +:+ "/") k = true.
Proof.
  unfold under. rewrite orb_true_iff, String.eqb_eq. reflexivity.
Qed.

(** Two trees that share an entry are nested. *)
Lemma under_chain p q k :
  under p k = true → under q k = true →
  under p q = true ∨ under q p = true.
Proof.
  intros Hp Hq.
  destruct (proj1 (under_eq p k) Hp) as [->|Hpk]; [right; exact Hq|].
  destruct (proj1 (under_eq q k) Hq) as [->|Hqk]; [left; exact Hp|].
  destruct (prefix_chain _ _ _ Hpk Hqk) as [H|H];
    apply prefix_slash in H; [left|right]; apply under_eq;
    destruct H as [->|H]; auto.
Qed.

Lemma subtree_remove_entry_apart p q (m : FS) :
  under p q = false → under q p = false →
  subtree q (remove_entry p m) = subtree q m.
Proof.
  intros Hpq Hqp. unfold subtree. apply map_eq. intros k.
  rewrite !map_lookup_filter. destruct (under q k) eqn:Hqk.
  - rewrite remove_entry_lookup_other; [reflexivity|].
    destruct (under p k) eqn:Hpk; [|reflexivity].
    destruct (under_chain p q k Hpk Hqk); congruence.
  - destruct (remove_entry p m !! k), (m !! k); simpl;
      rewrite ?Hqk; reflexivity.
Qed.

Lemma removable_remove_entry_apart p q (m : FS) :
  under p q = false → under q p = false →
  removable (remove_entry p m) q = removable m q.
Proof.
  intros Hpq Hqp. unfold removable.
  rewrite remove_entry_lookup_other by exact Hpq.
  rewrite subtree_remove_entry_apart by assumption. reflexivity.
Qed.

Lemma bind_raises {A B} (m : M A) (k : A → M B) w e :
  (m w).1 = Raise e → (bind m k w).1 = Raise e.
Proof. unfold bind. destruct (m w) as [[a|e'] w']; simpl; congruence. Qed.

Lemma for_each_clean_raises l : ∀ w,
  apart (Path <$> l) = true →
  ¬ Forall (λ path, removable (fs w) (Path path) = true) l →
  ∃ path, path ∈ l ∧
          (for_each l clean_entry w).1 = Raise (OSError (Path path)).
Proof.
  induction l as [|p l IH]; intros w Hap Hrm.
  - exfalso. apply Hrm. constructor.
  - cbn [fmap list_fmap apart] in Hap. apply andb_true_iff in Hap as [Hp Hap].
    rewrite forallb_forall in Hp.
    destruct (removable (fs w) (Path p)) eqn:Hrp.
    + cbn [for_each]. unfold bind at 1. rewrite clean_entry_eq by exact Hrp.
      destruct (IH (mkWorld (remove_entry (Path p) (fs w))
                            (trace w ++ entry_report (fs w) p)) Hap)
        as (path & Hin & Hraise).
      * cbn [fs]. intros Hall. apply Hrm. constructor; [exact Hrp|].
        rewrite Forall_forall in Hall. apply Forall_forall. intros path Hin.
        assert (Hpq : negb (under (Path p) (Path path)) &&
                      negb (under (Path path) (Path p)) = true).
        { apply Hp, list_elem_of_In, list_elem_of_fmap. exists path. auto. }
        apply andb_true_iff in Hpq as [Hpq Hqp].
        apply negb_true_iff in Hpq, Hqp.
        rewrite <- (removable_remove_entry_apart (Path p)) by assumption.
        apply Hall, Hin.
      * exists path. split; [right; exact Hin | exact Hraise].
    + exists p. split; [left|].
      cbn [for_each]. apply bind_raises, clean_entry_raises, Hrp.
Qed.

(** X11: [clean] returns [true] exactly on the file systems where the
    removals succeed; on all others a file-system error leaves it. *)
Lemma clean_returns_iff w :
  (clean w).1 = Return true ↔ removals_succeed (fs w).
Proof.
  split.
  - intros Hret.
    destruct (decide (removals_succeed (fs w))) as [H|H]; [exact H|].
    exfalso. revert Hret. unfold clean. unfold_prog.
    destruct (for_each_clean_raises paths_to_remove
                (mkWorld (fs w)
                         (trace w ++ [Print Header "Cleaning Build Artifacts"]))
                paths_to_remove_apart H) as (path & _ & Hraise).
    destruct (for_each paths_to_remove clean_entry _) as [[[]|e] w'];
      simpl in Hraise |- *; congruence.
  - intros H. rewrite clean_eq by exact H. reflexivity.
Qed.

(** * Concrete runs *)

(** C3 (counterexample): the linter invocation of [lint], ending with
    exit code 1 under [check = false], makes [run_command] return
    [false] without any diagnostic. *)
Lemma run_command_unchecked_exit_silent :
  (run_command (spawn_const (Exited 1)) ["golangci-lint"; "run"; "./..."]
     None false empty_world).1 = Return false ∧
  filter is_diagnostic
    (new_events empty_world
       (run_command (spawn_const (Exited 1)) ["golangci-lint"; "run"; "./..."]
          None false empty_world).2) = [].
Proof. split; reflexivity. Qed.

(** C9 (counterexample): only the two coverage files exist, but the
    coverage profile may not be removed: [clean] raises at that entry,
    reports nothing as removed and returns no result. *)
Lemma clean_locked_coverage_file_raises :
  coverage_files_locked !! Path "build/" = None ∧
  coverage_files_locked !! Path "frontend/dist/" = None ∧
  coverage_files_locked !! Path "frontend/node_modules/" = None ∧
  coverage_files_locked !! Path "coverage.out" = Some locked_file ∧
  coverage_files_locked !! Path "coverage.html" = Some regular_file ∧
  (clean (mkWorld coverage_files_locked [])).1 = Raise (OSError "coverage.out") ∧
  (clean (mkWorld coverage_files_locked [])).1 ≠ Return true ∧
  filter is_removed_report
    (new_events (mkWorld coverage_files_locked [])
       (clean (mkWorld coverage_files_locked [])).2) = [].
Proof. repeat split; try reflexivity. discriminate. Qed.

(** [deps] when no executable is found at all: the download is the
    only process started. *)
Lemma deps_download_failure_stops_witness :
  succeeded (spawn_const NotFound ["go"; "mod"; "download"] None
               (fs empty_world)).1 = false ∧
  (deps (spawn_const NotFound) empty_world).1 = Return false ∧
  invocations (new_events empty_world (deps (spawn_const NotFound) empty_world).2) =
    [mkInvocation ["go"; "mod"; "download"] None true] ∧
  count_cmd ["go"; "mod"; "tidy"]
    (new_events empty_world (deps (spawn_const NotFound) empty_world).2) = 0%nat ∧
  count_cmd ["npm"; "install"]
    (new_events empty_world (deps (spawn_const NotFound) empty_world).2) = 0%nat.
Proof.
  split; [reflexivity|].
  apply (deps_download_failure_stops (spawn_const NotFound) empty_world).
  reflexivity.
Defined.

(** [clean] on a tree that holds only the two coverage files. *)
Lemma clean_returns_true_witness :
  removals_succeed (fs (mkWorld coverage_files [])) ∧
  (clean (mkWorld coverage_files [])).1 = Return true ∧
  ∀ path, path ∈ paths_to_remove →
    fs (mkWorld coverage_files []) !! Path path = None →
    Print Info ("Skipping (not found): " +:+ path)
      ∈ new_events (mkWorld coverage_files []) (clean (mkWorld coverage_files [])).2.
Proof.
  split; [apply (bool_decide_unpack _); vm_compute; exact I|].
  apply (clean_returns_true (mkWorld coverage_files [])).
  apply (bool_decide_unpack _). vm_compute. exact I.
Defined.

(** [clean], twice, on a tree with build output, a frontend and a
    coverage profile. *)
Lemma clean_idempotent_witness :
  removals_succeed (fs (mkWorld full_tree [])) ∧
  fs (clean (clean (mkWorld full_tree [])).2).2 = fs (clean (mkWorld full_tree [])).2 ∧
  (∀ path, path ∈ paths_to_remove →
     fs (clean (mkWorld full_tree [])).2 !! Path path = None) ∧
  (clean (mkWorld full_tree [])).1 = Return true ∧
  (clean (clean (mkWorld full_tree [])).2).1 = (clean (mkWorld full_tree [])).1.
Proof.
  split; [apply (bool_decide_unpack _); vm_compute; exact I|].
  apply (clean_idempotent (mkWorld full_tree [])).
  apply (bool_decide_unpack _). vm_compute. exact I.
Defined.

(** The scenario with two regular coverage files. *)
Lemma clean_coverage_files_only_witness :
  (clean (mkWorld coverage_files [])).1 = Return true ∧
  filter (λ e, is_removed_report e || is_skipped_report e)
    (new_events (mkWorld coverage_files []) (clean (mkWorld coverage_files [])).2) =
    [Print Info "Skipping (not found): build/";
     Print Info "Skipping (not found): frontend/dist/";
     Print Info "Skipping (not found): frontend/node_modules/";
     Print Success "Removed: coverage.out";
     Print Success "Removed: coverage.html"] ∧
  length (filter is_removed_report
            (new_events (mkWorld coverage_files [])
               (clean (mkWorld coverage_files [])).2)) = 2%nat ∧
  length (filter is_skipped_report
            (new_events (mkWorld coverage_files [])
               (clean (mkWorld coverage_files [])).2)) = 3%nat.
Proof.
  apply (clean_coverage_files_only (mkWorld coverage_files []));
    first [reflexivity | (eexists; reflexivity)].
Defined.

(** The wrapper around a failing [build.py lint]: the child ends with
    exit status 1, the wrapper with 0. *)
Lemma run_py_exit_status_zero_witness :
  (spawn_build_lint (spawn_const (Exited 1)) ["python3"; "build.py"; "lint"]
     None (fs empty_world)).1 = Exited 1 ∧
  exit_code (run_py (spawn_build_lint (spawn_const (Exited 1)))
               "python3" "build.py" ["run.py"; "lint"] empty_world).1 = 0 ∧
  invocations
    (new_events empty_world
       (run_py (spawn_build_lint (spawn_const (Exited 1)))
          "python3" "build.py" ["run.py"; "lint"] empty_world).2) =
    [mkInvocation ["python3"; "build.py"; "lint"] None false].
Proof.
  split; [reflexivity|].
  apply (run_py_exit_status_zero (spawn_build_lint (spawn_const (Exited 1)))
           "python3" "build.py" ["run.py"; "lint"] empty_world).
  intros args. discriminate.
Defined.

Example test_coverage_failing_tests :
  test (spawn_const (Exited 1)) true empty_world =
  (Return false,
   mkWorld ∅
     [Print Header "Running Tests";
      Print Info
        "Running: go test -v -coverprofile=coverage.out ./internal/... ./pkg/...";
      Spawn (mkInvocation test_coverage_cmd None true);
      Print Error "Command failed with exit code 1"]).
Proof. reflexivity. Qed.

Example test_coverage_report_fails :
  (test (spawn_except cover_report_cmd NotFound) true empty_world).1 = Return false ∧
  invocations (trace (test (spawn_except cover_report_cmd NotFound) true empty_world).2) =
    [mkInvocation test_coverage_cmd None true;
     mkInvocation cover_report_cmd None true].
Proof. split; reflexivity. Qed.

Example build_clean_upx :
  invocations (trace (build (spawn_const (Exited 0)) true true empty_world).2) =
    [mkInvocation ["wails"; "build"; "-clean"; "-upx"] None true].
Proof. reflexivity. Qed.

Example lint_linter_missing :
  lint (spawn_const NotFound) empty_world =
  (Return false,
   mkWorld ∅
     [Print Header "Running Linter";
      Print Info "Running: golangci-lint run ./...";
      Spawn (mkInvocation ["golangci-lint"; "run"; "./..."] None false);
      Print Error "Command not found: golangci-lint";
      Print Error "Linting failed (or golangci-lint not installed)"]).
Proof. reflexivity. Qed.

Example deps_with_frontend :
  (deps (spawn_const (Exited 0)) (mkWorld full_tree [])).1 = Return true ∧
  invocations (trace (deps (spawn_const (Exited 0)) (mkWorld full_tree [])).2) =
    [mkInvocation ["go"; "mod"; "download"] None true;
     mkInvocation ["go"; "mod"; "tidy"] None true;
     mkInvocation ["npm"; "install"] (Some "frontend") true].
Proof. split; reflexivity. Qed.

Example run_py_no_arguments :
  exit_code (run_py (spawn_const (Exited 0)) "python3" "build.py" ["run.py"]
               empty_world).1 = 0 ∧
  invocations (trace (run_py (spawn_const (Exited 0)) "python3" "build.py"
                        ["run.py"] empty_world).2) =
    [mkInvocation ["python3"; "build.py"; "--help"] None false].
Proof. split; reflexivity. Qed.

(** * Further properties of the dispatch *)

Section command_facts.

Context (spawn : list string → option string → FS → Outcome * FS).

(** X1: [dev], [doctor], [generate] and [install_wails] each make
    exactly one call of [subprocess.run], with [check] set.  When the
    process exits, the function returns whether the exit code is 0;
    when its executable is not found, the function returns [false];
    the file system is left as the process left it. *)
Theorem single_call_commands w :
  let one (c : list string) (r : Res bool * World) :=
    invocations (new_events w r.2) = [mkInvocation c None true] ∧
    fs r.2 = (spawn c None (fs w)).2 ∧
    match (spawn c None (fs w)).1 with
    | Exited rc => r.1 = Return (bool_decide (rc = 0))
    | NotFound => r.1 = Return false
    end in
  one ["wails"; "dev"] (dev spawn w) ∧
  one ["wails"; "doctor"] (doctor spawn w) ∧
  one ["wails"; "generate"; "module"] (generate spawn w) ∧
  one ["go"; "install"; "github.com/wailsapp/wails/v2/cmd/wails@latest"]
      (install_wails spawn w).
Proof.
  cbv zeta. repeat split;
    unfold dev, doctor, generate, install_wails; unfold_prog; step_run;
    try match goal with
        | |- context [(spawn ?c None (fs w)).1] =>
            destruct (spawn c None (fs w)).1 as [rc|]
        end;
    cbn [succeeded];
    try match goal with
        | |- context [?x =? 0] =>
            destruct (x =? 0) eqn:E;
            [apply Z.eqb_eq in E | apply Z.eqb_neq in E]
        end;
    try (rewrite bool_decide_eq_true_2 by assumption);
    try (rewrite bool_decide_eq_false_2 by assumption);
    first [settle | reflexivity].
Qed.

(** X2: when the process [build] starts exits, [build] returns whether
    the exit code is 0; when its executable is not found, [build]
    returns [false]; this holds for every combination of options. *)
Theorem build_result (clean upx : bool) w :
  match (spawn (["wails"; "build"] ++ (if clean then ["-clean"] else [])
                                   ++ (if upx then ["-upx"] else []))
               None (fs w)).1 with
  | Exited rc => (build spawn clean upx w).1 = Return (bool_decide (rc = 0))
  | NotFound => (build spawn clean upx w).1 = Return false
  end.
Proof.
  unfold build. unfold_prog.
  destruct clean, upx; cbn [app]; step_run;
    match goal with
    | |- context [(spawn ?c None (fs w)).1] =>
        destruct (spawn c None (fs w)).1 as [rc|]
    end;
    cbn [succeeded];
    try match goal with
        | |- context [?x =? 0] =>
            destruct (x =? 0) eqn:E;
            [apply Z.eqb_eq in E | apply Z.eqb_neq in E]
        end;
    try (rewrite bool_decide_eq_true_2 by assumption);
    try (rewrite bool_decide_eq_false_2 by assumption);
    reflexivity.
Qed.

(** X3: The error lines of [lint]: a missing linter gives "Command not
    found" followed by "Linting failed"; a non-zero exit gives only
    "Linting failed"; exit code 0 gives none.  "Linting complete" is
    printed exactly when [lint] returns [true]. *)
Theorem lint_diagnostics w :
  let o := (spawn ["golangci-lint"; "run"; "./..."] None (fs w)).1 in
  let r := lint spawn w in
  filter is_diagnostic (new_events w r.2) =
    match o with
    | NotFound =>
        [Print Error "Command not found: golangci-lint";
         Print Error "Linting failed (or golangci-lint not installed)"]
    | Exited rc =>
        if bool_decide (rc = 0) then []
        else [Print Error "Linting failed (or golangci-lint not installed)"]
    end ∧
  (Print Success "Linting complete" ∈ new_events w r.2 ↔ r.1 = Return true).
Proof.
  intros o r. subst r. unfold lint. unfold_prog. step_run. fold o.
  destruct o as [rc|]; cbn [succeeded run_diagnostic andb].
  - case_bool_decide as Hrc.
    + subst rc. cbn [Z.eqb fs trace fst snd]. rewrite <- !app_assoc.
      rewrite new_events_app. split; [reflexivity|].
      split; [reflexivity|]. intros _. cbn [app].
      rewrite !elem_of_cons. auto.
    + apply Z.eqb_neq in Hrc. rewrite Hrc. cbn [fs trace fst snd].
      rewrite <- !app_assoc. rewrite new_events_app. split; [reflexivity|].
      cbn [app]. rewrite !elem_of_cons, elem_of_nil.
      split; [|discriminate]. intros [H|[H|[H|[H|[]]]]]; discriminate.
  - cbn [fs trace fst snd]. rewrite <- !app_assoc. rewrite new_events_app.
    split; [reflexivity|].
    cbn [app]. rewrite !elem_of_cons, elem_of_nil.
    split; [|discriminate]. intros [H|[H|[H|[H|[H|[]]]]]]; discriminate.
Qed.

(** X4: When the download succeeds and the tidy step fails, [deps] starts
    exactly these two processes, never the frontend install, and
    returns [false]. *)
Theorem deps_tidy_failure_stops w :
  let d := spawn ["go"; "mod"; "download"] None (fs w) in
  succeeded d.1 = true →
  succeeded (spawn ["go"; "mod"; "tidy"] None d.2).1 = false →
  (deps spawn w).1 = Return false ∧
  invocations (new_events w (deps spawn w).2) =
    [mkInvocation ["go"; "mod"; "download"] None true;
     mkInvocation ["go"; "mod"; "tidy"] None true] ∧
  count_cmd ["npm"; "install"] (new_events w (deps spawn w).2) = 0%nat.
Proof.
  intros d Hd Ht. unfold deps. unfold_prog. step_run. fold d. rewrite Hd.
  cbn [negb fs trace fst snd]. step_run. rewrite Ht. settle.
Qed.

End command_facts.

Section main_facts.

Context (spawn : list string → option string → FS → Outcome * FS).

(** X7: [deps] returns [true] exactly when the download, the tidy step and
    the frontend install all exited with code 0 and [frontend] exists
    as a directory after the tidy step. *)
Theorem deps_success_means_all_steps w :
  let d := spawn ["go"; "mod"; "download"] None (fs w) in
  let t := spawn ["go"; "mod"; "tidy"] None d.2 in
  let n := spawn ["npm"; "install"] (Some "frontend") t.2 in
  (deps spawn w).1 = Return true ↔
  succeeded d.1 = true ∧ succeeded t.1 = true ∧
  (∃ entry, t.2 !! "frontend" = Some entry ∧ node_is_dir entry = true) ∧
  succeeded n.1 = true.
Proof.
  intros d t n. unfold deps. unfold_prog. step_run. fold d.
  destruct (succeeded d.1) eqn:Hd; cbn [negb fs trace fst snd];
    [|split; [discriminate | intros (? & _); discriminate]].
  step_run. fold t.
  destruct (succeeded t.1) eqn:Ht; cbn [negb fs trace fst snd];
    [|split; [discriminate | intros (_ & ? & _); discriminate]].
  change (Path "frontend") with "frontend".
  destruct (t.2 !! "frontend") as [entry|] eqn:Hen.
  - rewrite bool_decide_eq_true_2 by eauto.
    destruct (node_is_dir entry) eqn:Hdir.
    + rewrite run_command_eq
        by (unfold cwd_error; cbn [fs]; rewrite Hen, Hdir; reflexivity).
      cbn [fs trace fst snd]. fold n.
      destruct (succeeded n.1) eqn:Hn; cbn [fs trace fst snd].
      * split; [|reflexivity]. intros _. repeat split; eauto.
      * split; [discriminate | intros (_ & _ & _ & ?); discriminate].
    + rewrite run_command_cwd_not_directory
        by (unfold cwd_error; cbn [fs]; rewrite Hen, Hdir; reflexivity).
      cbn [fst]. split; [discriminate|].
      intros (_ & _ & (entry' & [= <-] & Hdir') & _). congruence.
  - rewrite bool_decide_eq_false_2 by apply is_Some_None.
    cbn [fs trace fst snd]. split; [discriminate|].
    intros (_ & _ & (entry' & [=] & _) & _).
Qed.

Lemma clean_raises w :
  ¬ removals_succeed (fs w) →
  ∃ path, path ∈ paths_to_remove ∧ (clean w).1 = Raise (OSError (Path path)).
Proof.
  intros H. unfold clean. unfold_prog.
  destruct (for_each_clean_raises paths_to_remove
              (mkWorld (fs w)
                       (trace w ++ [Print Header "Cleaning Build Artifacts"]))
              paths_to_remove_apart H) as (path & Hin & Hraise).
  exists path. split; [exact Hin|].
  destruct (for_each paths_to_remove clean_entry _) as [[[]|e] w'];
    simpl in Hraise |- *; congruence.
Qed.

(** Every command function returns a boolean, except that [deps] may
    raise [NameError] or [NotADirectoryError] and [clean] may raise
    [OSError]. *)
Lemma handler_outcome args w :
  (∃ b, (handler spawn args w).1 = Return b) ∨
  (∃ name, (handler spawn args w).1 = Raise (NameError name)) ∨
  (∃ path, (handler spawn args w).1 = Raise (OSError path)) ∨
  (handler spawn args w).1 = Raise NotADirectoryError.
Proof.
  unfold handler. destruct (arg_command args).
  - left. unfold dev. unfold_prog. step_run. eauto.
  - left. unfold build. unfold_prog.
    destruct (arg_clean args), (arg_upx args); cbn [app]; step_run; eauto.
  - left. unfold test, test_coverage_cmd, cover_report_cmd, test_plain_cmd.
    unfold_prog. destruct (arg_coverage args); step_run.
    + match goal with |- context [succeeded ?o] => destruct (succeeded o) end;
        cbn [negb fs trace fst snd]; [|eauto].
      step_run.
      match goal with |- context [succeeded ?o] => destruct (succeeded o) end;
        cbn [fst]; eauto.
    + match goal with |- context [succeeded ?o] => destruct (succeeded o) end;
        cbn [fst]; eauto.
  - destruct (decide (removals_succeed (fs w))) as [H|H].
    + left. rewrite clean_eq by exact H. eauto.
    + right. right. left. destruct (clean_raises w H) as (path & _ & Hr).
      eauto.
  - unfold deps. unfold_prog. step_run.
    match goal with |- context [succeeded ?o] => destruct (succeeded o) end;
      cbn [negb fs trace fst snd]; [|eauto].
    step_run.
    match goal with |- context [succeeded ?o] => destruct (succeeded o) end;
      cbn [negb fs trace fst snd]; [|eauto].
    case_bool_decide; cbn [fs trace fst snd]; [|eauto].
    match goal with
    | |- context [run_command spawn ?c ?d ?k ?w0] =>
        destruct (cwd_error_cases (fs w0) d) as [Hcwd|[Hcwd|Hcwd]]
    end.
    + rewrite run_command_eq by exact Hcwd. cbn [fs trace fst snd].
      match goal with |- context [succeeded ?o] => destruct (succeeded o) end;
        cbn [fst]; eauto.
    + rewrite run_command_cwd_missing by exact Hcwd. cbn [fst]. eauto.
    + rewrite run_command_cwd_not_directory by exact Hcwd. cbn [fst].
      right. right. right. reflexivity.
  - left. unfold lint. unfold_prog. step_run.
    match goal with |- context [succeeded ?o] => destruct (succeeded o) end;
      cbn [fst]; eauto.
  - left. unfold install_wails. unfold_prog. step_run.
    match goal with |- context [succeeded ?o] => destruct (succeeded o) end;
      cbn [fst]; eauto.
  - left. unfold generate. unfold_prog. step_run.
    match goal with |- context [succeeded ?o] => destruct (succeeded o) end;
      cbn [fst]; eauto.
  - left. unfold doctor. unfold_prog. step_run. eauto.
Qed.

Lemma main_eq args w :
  main spawn args w =
  match handler spawn args w with
  | (Return true, w') =>
      (Raise (SystemExit 0),
       mkWorld (fs w') (trace w' ++ [Print Plain "Success!"]))
  | (Return false, w') =>
      (Raise (SystemExit 1),
       mkWorld (fs w') (trace w' ++ [Print Plain "Failed!"]))
  | (Raise e, w') => (Raise e, w')
  end.
Proof.
  change (main spawn args w) with
    (bind (handler spawn args)
       (λ success : bool,
          if success then
            bind (emit (Print Plain "Success!"))
                 (λ _, raise (SystemExit 0) : M unit)
          else
            bind (emit (Print Plain "Failed!"))
                 (λ _, raise (SystemExit 1) : M unit))
       w).
  unfold bind at 1.
  destruct (handler spawn args w) as [[[]|e] w']; reflexivity.
Qed.

(** X8: [main] never runs to its end: it leaves through [sys.exit] or
    through the exception of its command.  The exit status of
    [build.py] is 0 exactly when the command function returned [True]
    and 1 otherwise, also after an uncaught exception; the final
    "Success!" or "Failed!" line is printed after everything else, and
    not at all after an exception. *)
Theorem main_exit_status args w :
  let h := handler spawn args w in
  let r := main spawn args w in
  (∃ e, r.1 = Raise e) ∧
  exit_code r.1 = match h.1 with Return true => 0 | _ => 1 end ∧
  fs r.2 = fs h.2 ∧
  trace r.2 = trace h.2 ++
              match h.1 with
              | Return true => [Print Plain "Success!"]
              | Return false => [Print Plain "Failed!"]
              | Raise _ => []
              end.
Proof.
  intros h r. subst h r. rewrite main_eq.
  destruct (handler_outcome args w) as [[b H]|[[name H]|[[path H]|H]]];
    destruct (handler spawn args w) as [res w']; cbn [fst snd] in H |- *;
    subst res.
  - destruct b; cbn [fst snd fs trace exit_code]; repeat split; eauto.
  - rewrite app_nil_r. repeat split; eauto.
  - rewrite app_nil_r. repeat split; eauto.
  - rewrite app_nil_r. repeat split; eauto.
Qed.

(** X9: Options that do not belong to the command are ignored: [main]
    behaves the same for two argument sets with the same command that
    agree on [coverage] when the command is [test] and on [clean] and
    [upx] when it is [build]. *)
Theorem main_ignores_foreign_options c cov cl ux cov' cl' ux' w :
  (c = CmdTest → cov = cov') →
  (c = CmdBuild → cl = cl' ∧ ux = ux') →
  main spawn (mkArgs c cov cl ux) w = main spawn (mkArgs c cov' cl' ux') w.
Proof.
  intros Ht Hb. destruct c; try reflexivity.
  - destruct (Hb eq_refl) as [-> ->]. reflexivity.
  - rewrite (Ht eq_refl). reflexivity.
Qed.

Context (sys_executable build_script : string).

(** X10: When the interpreter cannot be started, [run.py] gives up after
    that one attempt: the [FileNotFoundError] is not caught and the
    wrapper ends with exit status 1. *)
Theorem run_py_interpreter_missing argv w :
  (spawn (sys_executable :: build_script ::
            (if (length argv =? 1)%nat then ["--help"] else drop 1 argv))
     None (fs w)).1 = NotFound →
  let r := run_py spawn sys_executable build_script argv w in
  r.1 = Raise FileNotFoundError ∧
  exit_code r.1 = 1 ∧
  length (invocations (new_events w r.2)) = 1%nat.
Proof.
  intros H r. subst r. unfold run_py, subprocess_run, launch. unfold_prog.
  cbn [cwd_error].
  destruct (length argv =? 1)%nat; cbn [app] in H |- *;
    match goal with
    | |- context [spawn ?c None (fs w)] =>
        destruct (spawn c None (fs w)) as [[rc|] m]
    end; cbn [fst] in H; try discriminate; settle.
Qed.

End main_facts.

(** * Further properties of [clean] *)

Lemma prune_lookup_under p k (m : FS) :
  under p k = true → prune p m !! k = None.
Proof.
  intros H. unfold prune. apply map_lookup_filter_None. right.
  intros n _ Hn. apply Hn. simpl. rewrite H. exact I.
Qed.

Lemma remove_all_lookup_other l (m : FS) k :
  (∀ path, path ∈ l → under (Path path) k = false) →
  remove_all l m !! k = m !! k.
Proof.
  revert m. induction l as [|p l IH]; intros m H; [reflexivity|].
  simpl. rewrite IH by (intros path Hin; apply H; right; exact Hin).
  apply remove_entry_lookup_other, H. left.
Qed.

Lemma invocations_entry_report (m : FS) path :
  invocations (entry_report m path) = [].
Proof. unfold entry_report. destruct (m !! Path path); reflexivity. Qed.

Lemma invocations_attempt_report (m : FS) path :
  invocations (attempt_report m path) = [].
Proof. unfold attempt_report. destruct (m !! Path path); reflexivity. Qed.

(** One round of the loop, in closed form, when the removal raises:
    the "Removing" line is the last thing printed and the file system
    is as before. *)
Lemma clean_entry_raises_eq path w :
  removable (fs w) (Path path) = false →
  clean_entry path w =
  (Raise (OSError (Path path)),
   mkWorld (fs w) (trace w ++ attempt_report (fs w) path)).
Proof.
  unfold removable, attempt_report. intros H.
  unfold clean_entry, fs_is_dir, rmtree, unlink. unfold_prog.
  destruct (fs w !! Path path) as [n|] eqn:Hp; [|discriminate].
  rewrite bool_decide_eq_true_2 by (rewrite ?Hp; eauto).
  rewrite ?Hp. cbn [from_option].
  destruct (node_is_dir n) eqn:Hd; cbn [fs trace]; rewrite ?Hp, ?Hd.
  - rewrite H. reflexivity.
  - apply negb_false_iff in H. rewrite H. reflexivity.
Qed.

Lemma cleaned_refl l w : cleaned l w w.
Proof.
  split; [reflexivity|]. split; [reflexivity|].
  exists []. rewrite app_nil_r. split; reflexivity.
Qed.

Lemma cleaned_trans l w1 w2 w3 :
  cleaned l w1 w2 → cleaned l w2 w3 → cleaned l w1 w3.
Proof.
  intros (Hs1 & Hk1 & es1 & Ht1 & Hi1) (Hs2 & Hk2 & es2 & Ht2 & Hi2).
  split; [etrans; eassumption|]. split.
  - intros k Hk. rewrite Hk2, Hk1 by exact Hk. reflexivity.
  - exists (es1 ++ es2). rewrite Ht2, Ht1, <- app_assoc.
    split; [reflexivity|]. rewrite invocations_app, Hi1, Hi2. reflexivity.
Qed.

Lemma cleaned_print l w lv msg :
  cleaned l w (mkWorld (fs w) (trace w ++ [Print lv msg])).
Proof.
  split; [reflexivity|]. split; [reflexivity|].
  exists [Print lv msg]. split; reflexivity.
Qed.

Lemma clean_entry_cleaned l path w :
  path ∈ l → cleaned l w (clean_entry path w).2.
Proof.
  intros Hin. destruct (removable (fs w) (Path path)) eqn:Hr.
  - rewrite clean_entry_eq by exact Hr. cbn [snd].
    split; [apply remove_entry_subseteq|]. split.
    + intros k Hk. apply remove_entry_lookup_other, Hk, Hin.
    + eexists. split; [reflexivity | apply invocations_entry_report].
  - rewrite clean_entry_raises_eq by exact Hr. cbn [snd].
    split; [reflexivity|]. split; [reflexivity|].
    eexists. split; [reflexivity | apply invocations_attempt_report].
Qed.

Lemma for_each_cleaned l l' : ∀ w,
  (∀ path, path ∈ l' → path ∈ l) →
  cleaned l w (for_each l' clean_entry w).2.
Proof.
  induction l' as [|p l' IH]; intros w Hsub; [apply cleaned_refl|].
  cbn [for_each]. unfold bind at 1.
  pose proof (clean_entry_cleaned l p w (Hsub p ltac:(left))) as Hstep.
  destruct (clean_entry p w) as [[[]|e] w1]; cbn [snd] in Hstep |- *.
  - eapply cleaned_trans; [exact Hstep|].
    apply IH. intros path Hin. apply Hsub. right. exact Hin.
  - exact Hstep.
Qed.

Lemma clean_cleaned w : cleaned paths_to_remove w (clean w).2.
Proof.
  unfold clean. unfold_prog.
  pose proof (for_each_cleaned paths_to_remove paths_to_remove
                (mkWorld (fs w)
                   (trace w ++ [Print Header "Cleaning Build Artifacts"]))
                (λ _ H, H)) as Hloop.
  destruct (for_each paths_to_remove clean_entry _) as [[[]|e] w1];
    cbn [snd] in Hloop |- *.
  - eapply cleaned_trans; [apply cleaned_print|].
    eapply cleaned_trans; [exact Hloop|]. apply cleaned_print.
  - eapply cleaned_trans; [apply cleaned_print | exact Hloop].
Qed.

(** X12: [clean] starts no external process, whatever the file system and
    whether or not a removal raises. *)
Theorem clean_starts_no_process w :
  invocations (new_events w (clean w).2) = [].
Proof.
  destruct (clean_cleaned w) as (_ & _ & es & Ht & Hi).
  unfold new_events. rewrite Ht, drop_app_length. exact Hi.
Qed.

(** X13: [clean] creates and changes nothing: every entry left after the
    run was there before, unchanged, and every entry that is not at or
    below one of the five listed paths is still there, also when a
    removal raises. *)
Theorem clean_only_removes_listed w :
  fs (clean w).2 ⊆ fs w ∧
  ∀ k, (∀ path, path ∈ paths_to_remove → under (Path path) k = false) →
       fs (clean w).2 !! k = fs w !! k.
Proof.
  destruct (clean_cleaned w) as (Hs & Hk & _). split; assumption.
Qed.

Lemma apart_cons p l q :
  apart (Path <$> (p :: l)) = true → q ∈ l →
  under (Path p) (Path q) = false ∧ under (Path q) (Path p) = false.
Proof.
  cbn [fmap list_fmap apart]. intros Hap Hin.
  apply andb_true_iff in Hap as [Hp _]. rewrite forallb_forall in Hp.
  assert (H : negb (under (Path p) (Path q)) &&
              negb (under (Path q) (Path p)) = true).
  { apply Hp, list_elem_of_In, list_elem_of_fmap. exists q. auto. }
  apply andb_true_iff in H as [H1 H2].
  split; apply negb_true_iff; assumption.
Qed.

Lemma apart_tail p l : apart (Path <$> (p :: l)) = true → apart (Path <$> l) = true.
Proof.
  cbn [fmap list_fmap apart]. intros Hap.
  apply andb_true_iff in Hap as [_ Hap]. exact Hap.
Qed.

Lemma apart_app l1 : ∀ l2 x q,
  apart (Path <$> (l1 ++ l2)) = true → x ∈ l1 → q ∈ l2 →
  under (Path x) (Path q) = false.
Proof.
  induction l1 as [|p l1 IH]; intros l2 x q Hap Hx Hq; [inversion Hx|].
  apply elem_of_cons in Hx as [->|Hx].
  - apply (apart_cons p (l1 ++ l2) q Hap). apply elem_of_app. right. exact Hq.
  - eapply IH; [eapply apart_tail, Hap | exact Hx | exact Hq].
Qed.

(** The loop up to the first removal that raises, in closed form. *)
Lemma for_each_clean_fail l1 : ∀ p l2 w,
  apart (Path <$> (l1 ++ p :: l2)) = true →
  Forall (λ path, removable (fs w) (Path path) = true) l1 →
  removable (fs w) (Path p) = false →
  for_each (l1 ++ p :: l2) clean_entry w =
  (Raise (OSError (Path p)),
   mkWorld (remove_all l1 (fs w))
     (trace w ++ concat (entry_report (fs w) <$> l1)
              ++ attempt_report (fs w) p)).
Proof.
  induction l1 as [|x l1 IH]; intros p l2 w Hap Hrm Hp.
  - cbn [app for_each]. unfold bind at 1.
    rewrite clean_entry_raises_eq by exact Hp. reflexivity.
  - apply Forall_cons in Hrm as [Hrx Hrm].
    assert (Hother : ∀ q, q ∈ l1 ++ p :: l2 →
              under (Path x) (Path q) = false ∧
              under (Path q) (Path x) = false).
    { intros q Hq. apply (apart_cons x (l1 ++ p :: l2) q Hap Hq). }
    assert (Hp_in : p ∈ l1 ++ p :: l2) by (apply elem_of_app; right; left).
    cbn [app for_each]. unfold bind at 1. rewrite clean_entry_eq by exact Hrx.
    rewrite IH; cbn [fs trace].
    + f_equal. f_equal. rewrite <- app_assoc. f_equal.
      cbn [fmap list_fmap concat]. rewrite <- app_assoc. f_equal. f_equal.
      * f_equal. apply list_fmap_ext. intros i q Hi.
        apply entry_report_lookup, remove_entry_lookup_other.
        apply Hother, elem_of_app. left. eapply list_elem_of_lookup_2, Hi.
      * unfold attempt_report.
        rewrite remove_entry_lookup_other by apply Hother, Hp_in.
        reflexivity.
    + eapply apart_tail, Hap.
    + rewrite Forall_forall in Hrm. apply Forall_forall. intros q Hq.
      assert (Hq' : q ∈ l1 ++ p :: l2) by (apply elem_of_app; left; exact Hq).
      rewrite removable_remove_entry_apart by apply Hother, Hq'.
      apply Hrm, Hq.
    + rewrite removable_remove_entry_apart by apply Hother, Hp_in. exact Hp.
Qed.

Lemma entry_report_no_completion (m : FS) path :
  Print Success "Clean complete" ∉ entry_report m path.
Proof.
  unfold entry_report. destruct (m !! Path path);
    rewrite ?elem_of_cons, elem_of_nil; intros H;
    repeat (destruct H as [H|H]; [discriminate H|]); exact H.
Qed.

(** X14: [clean] stops at the first listed path whose removal raises: the
    error leaves [clean], the paths before it are gone, that path and
    the paths after it are as they were, and "Clean complete" is not
    printed. *)
Theorem clean_fails_fast w l1 p l2 :
  paths_to_remove = l1 ++ p :: l2 →
  Forall (λ path, removable (fs w) (Path path) = true) l1 →
  removable (fs w) (Path p) = false →
  (clean w).1 = Raise (OSError (Path p)) ∧
  (∀ q, q ∈ l1 → fs (clean w).2 !! Path q = None) ∧
  (∀ q, q ∈ p :: l2 → fs (clean w).2 !! Path q = fs w !! Path q) ∧
  Print Success "Clean complete" ∉ new_events w (clean w).2.
Proof.
  intros Hsplit Hrm Hp.
  assert (Hap : apart (Path <$> (l1 ++ p :: l2)) = true)
    by (rewrite <- Hsplit; apply paths_to_remove_apart).
  unfold clean. unfold_prog. rewrite Hsplit.
  rewrite for_each_clean_fail by assumption. cbn [fs trace fst snd].
  split; [reflexivity|]. split; [|split].
  - intros q Hq. apply remove_all_lookup, Hq.
  - intros q Hq. apply remove_all_lookup_other.
    intros x Hx. eapply apart_app; eassumption.
  - rewrite <- app_assoc, new_events_app. cbn [app].
    rewrite elem_of_cons, elem_of_app. intros [H|[H|H]]; [discriminate H| |].
    + apply list_elem_of_In, in_concat in H as (es & Hes & H).
      apply list_elem_of_In, list_elem_of_fmap in Hes as (q & -> & _).
      apply list_elem_of_In in H. revert H. apply entry_report_no_completion.
    + revert H. unfold attempt_report. destruct (fs w !! Path p);
        rewrite ?elem_of_cons, elem_of_nil; intros H;
        repeat (destruct H as [H|H]; [discriminate H|]); exact H.
Qed.

Lemma filter_entry_report (m : FS) path :
  filter (λ e, is_removed_report e || is_skipped_report e) (entry_report m path) =
  [final_report m path].
Proof.
  unfold entry_report, final_report.
  destruct (m !! Path path) as [n|]; [destruct (node_is_dir n)|];
    destruct path; reflexivity.
Qed.

Lemma filter_entry_reports (m : FS) l :
  filter (λ e, is_removed_report e || is_skipped_report e)
    (concat (entry_report m <$> l)) = final_report m <$> l.
Proof.
  induction l as [|p l IH]; [reflexivity|].
  cbn [fmap list_fmap concat]. rewrite filter_app, filter_entry_report.
  cbn [fmap list_fmap] in IH. rewrite IH. reflexivity.
Qed.

(** X15: When the removals succeed, [clean] reports every listed path
    exactly once and in the order of the list: "Removed" when the path
    existed, "Skipping" when it did not. *)
Theorem clean_reports_each_path_once w :
  removals_succeed (fs w) →
  filter (λ e, is_removed_report e || is_skipped_report e)
    (new_events w (clean w).2) =
  final_report (fs w) <$> paths_to_remove.
Proof.
  intros H. rewrite clean_eq by exact H. cbn [snd]. rewrite new_events_app.
  change (Print Header "Cleaning Build Artifacts" ::
          concat (entry_report (fs w) <$> paths_to_remove) ++
          [Print Success "Clean complete"])
    with ([Print Header "Cleaning Build Artifacts"] ++
          concat (entry_report (fs w) <$> paths_to_remove) ++
          [Print Success "Clean complete"]).
  rewrite !filter_app, filter_entry_reports.
  change (filter _ [Print Header "Cleaning Build Artifacts"]) with (@nil Event).
  change (filter _ [Print Success "Clean complete"]) with (@nil Event).
  rewrite app_nil_r. reflexivity.
Qed.

Lemma remove_all_prunes l : ∀ (m : FS) path n k,
  apart (Path <$> l) = true → path ∈ l →
  m !! Path path = Some n → node_is_dir n = true →
  under (Path path) k = true →
  remove_all l m !! k = None.
Proof.
  induction l as [|p l IH]; intros m path n k Hap Hin Hn Hd Hk;
    [inversion Hin|].
  cbn [remove_all foldl]. fold (remove_all l (remove_entry (Path p) m)).
  apply elem_of_cons in Hin as [->|Hin].
  - eapply lookup_weaken_None; [|apply remove_all_subseteq].
    unfold remove_entry. rewrite Hn, Hd. apply prune_lookup_under, Hk.
  - eapply IH; [eapply apart_tail, Hap | exact Hin | | exact Hd | exact Hk].
    rewrite remove_entry_lookup_other; [exact Hn|].
    apply (apart_cons p l path Hap Hin).
Qed.

(** X16: When the removals succeed, a listed directory goes with everything
    below it: no entry at or below its path is left. *)
Theorem clean_removes_subtrees w path n k :
  removals_succeed (fs w) →
  path ∈ paths_to_remove →
  fs w !! Path path = Some n → node_is_dir n = true →
  under (Path path) k = true →
  fs (clean w).2 !! k = None.
Proof.
  intros H Hin Hn Hd Hk. rewrite clean_eq by exact H. cbn [fs snd].
  eapply remove_all_prunes; eauto using paths_to_remove_apart.
Qed.

(** * Further concrete runs *)

(** The tidy step exits with code 2 after a good download. *)
Lemma deps_tidy_failure_stops_witness :
  (deps (spawn_except ["go"; "mod"; "tidy"] (Exited 2)) empty_world).1 =
    Return false ∧
  invocations
    (new_events empty_world
       (deps (spawn_except ["go"; "mod"; "tidy"] (Exited 2)) empty_world).2) =
    [mkInvocation ["go"; "mod"; "download"] None true;
     mkInvocation ["go"; "mod"; "tidy"] None true] ∧
  count_cmd ["npm"; "install"]
    (new_events empty_world
       (deps (spawn_except ["go"; "mod"; "tidy"] (Exited 2)) empty_world).2) =
    0%nat.
Proof.
  apply (deps_tidy_failure_stops
           (spawn_except ["go"; "mod"; "tidy"] (Exited 2)) empty_world);
    reflexivity.
Defined.

(** All three steps of [deps] on a tree with a frontend. *)
Lemma deps_frontend_present_witness :
  (deps (spawn_const (Exited 0)) (mkWorld full_tree [])).1 = Return true ∧
  invocations
    (new_events (mkWorld full_tree [])
       (deps (spawn_const (Exited 0)) (mkWorld full_tree [])).2) =
    [mkInvocation ["go"; "mod"; "download"] None true;
     mkInvocation ["go"; "mod"; "tidy"] None true;
     mkInvocation ["npm"; "install"] (Some "frontend") true].
Proof.
  apply (deps_frontend_present (spawn_const (Exited 0)) (mkWorld full_tree [])
           directory); reflexivity.
Defined.

(** [deps] on a tree where [frontend] is a regular file. *)
Lemma deps_frontend_not_directory_witness :
  (deps (spawn_const (Exited 0)) (mkWorld frontend_as_file [])).1 =
    Raise NotADirectoryError ∧
  fs (deps (spawn_const (Exited 0)) (mkWorld frontend_as_file [])).2 =
    frontend_as_file.
Proof.
  apply (deps_frontend_not_directory (spawn_const (Exited 0))
           (mkWorld frontend_as_file []) regular_file); reflexivity.
Defined.

(** [deps] on a tree that holds only coverage files. *)
Lemma deps_frontend_absent_witness :
  (deps (spawn_const (Exited 0)) (mkWorld coverage_files [])).1 =
    Raise (NameError "print_warning") ∧
  invocations
    (new_events (mkWorld coverage_files [])
       (deps (spawn_const (Exited 0)) (mkWorld coverage_files [])).2) =
    [mkInvocation ["go"; "mod"; "download"] None true;
     mkInvocation ["go"; "mod"; "tidy"] None true].
Proof.
  apply (deps_frontend_absent (spawn_const (Exited 0))
           (mkWorld coverage_files [])); reflexivity.
Defined.

(** [build --clean --coverage] is [build --clean]. *)
Lemma main_ignores_foreign_options_witness :
  main (spawn_const (Exited 0)) (mkArgs CmdBuild true true false) empty_world =
  main (spawn_const (Exited 0)) (mkArgs CmdBuild false true false) empty_world.
Proof.
  apply (main_ignores_foreign_options (spawn_const (Exited 0))
           CmdBuild true true false false true false empty_world).
  - discriminate.
  - intros _. split; reflexivity.
Defined.

(** The wrapper with no interpreter to start. *)
Lemma run_py_interpreter_missing_witness :
  (run_py (spawn_const NotFound) "python3" "build.py" ["run.py"; "build"]
     empty_world).1 = Raise FileNotFoundError ∧
  exit_code
    (run_py (spawn_const NotFound) "python3" "build.py" ["run.py"; "build"]
       empty_world).1 = 1 ∧
  length
    (invocations
       (new_events empty_world
          (run_py (spawn_const NotFound) "python3" "build.py"
             ["run.py"; "build"] empty_world).2)) = 1%nat.
Proof.
  apply (run_py_interpreter_missing (spawn_const NotFound)
           "python3" "build.py" ["run.py"; "build"] empty_world).
  reflexivity.
Defined.

(** [clean] stopping at a coverage profile that may not be removed. *)
Lemma clean_fails_fast_witness :
  (clean (mkWorld coverage_files_locked [])).1 = Raise (OSError (Path "coverage.out")) ∧
  (∀ q, q ∈ ["build/"; "frontend/dist/"; "frontend/node_modules/"] →
        fs (clean (mkWorld coverage_files_locked [])).2 !! Path q = None) ∧
  (∀ q, q ∈ ["coverage.out"; "coverage.html"] →
        fs (clean (mkWorld coverage_files_locked [])).2 !! Path q =
        fs (mkWorld coverage_files_locked []) !! Path q) ∧
  Print Success "Clean complete"
    ∉ new_events (mkWorld coverage_files_locked [])
        (clean (mkWorld coverage_files_locked [])).2.
Proof.
  apply (clean_fails_fast (mkWorld coverage_files_locked [])
           ["build/"; "frontend/dist/"; "frontend/node_modules/"]
           "coverage.out" ["coverage.html"]).
  - reflexivity.
  - apply (bool_decide_unpack _). vm_compute. exact I.
  - reflexivity.
Defined.

(** The reports of [clean] on a tree with build output, a frontend and
    a coverage profile. *)
Lemma clean_reports_each_path_once_witness :
  filter (λ e, is_removed_report e || is_skipped_report e)
    (new_events (mkWorld full_tree []) (clean (mkWorld full_tree [])).2) =
  [Print Success "Removed: build/";
   Print Success "Removed: frontend/dist/";
   Print Info "Skipping (not found): frontend/node_modules/";
   Print Success "Removed: coverage.out";
   Print Info "Skipping (not found): coverage.html"].
Proof.
  apply (clean_reports_each_path_once (mkWorld full_tree [])).
  apply (bool_decide_unpack _). vm_compute. exact I.
Defined.

(** The build output goes with the binary below it. *)
Lemma clean_removes_subtrees_witness :
  fs (clean (mkWorld full_tree [])).2 !! "build/bin/app" = None.
Proof.
  apply (clean_removes_subtrees (mkWorld full_tree []) "build/" directory
           "build/bin/app").
  - apply (bool_decide_unpack _). vm_compute. exact I.
  - apply (bool_decide_unpack _). vm_compute. exact I.
  - reflexivity.
  - reflexivity.
  - reflexivity.
Defined.
